(** * SRGAN (srgan.py): network topology, training loop and evaluation

    A shallow embedding of [class SRGAN] of [srgan.py].

    - The Keras functional API is embedded as a builder monad over a layer
      graph: every layer call allocates one fresh tensor (node) whose
      inbound tensors are the arguments of the call.  Shapes are inferred
      over the graph with the rules of the Keras layers that occur in the
      file; values are given a semantics over the real numbers in which the
      trained part of every layer (kernel, bias, normalisation statistics)
      is a parameter.
    - [__init__], [train], [test_images] and [sample_images_new] are
      embedded by explicit state passing; what the program does to the
      outside world (data loader, training steps, files) is recorded as a
      trace of events, and a run ends in a value or in the exception that
      stopped it ([%] by zero, a grid of subplots that cannot be built or
      indexed, a model that was not compiled).
    - Floating point numbers are modelled as real numbers. *)

From Stdlib Require Import String Ascii DecimalString Decimal DecimalZ.
From Stdlib Require Import List ZArith QArith Reals Lra Lia Bool.
Import ListNotations.

Set Implicit Arguments.

(* ------------------------------------------------------------------ *)
(** * Keras layers and the functional API *)
(* ------------------------------------------------------------------ *)

Module Keras.

Local Open Scope Z_scope.

(** (height, width, channels); the batch axis is left out, as in
    [Input(shape=...)]. *)
Definition shape : Type := (Z * Z * Z)%type.

Definition shape_eqb (a b : shape) : bool :=
  let '(h1, w1, c1) := a in
  let '(h2, w2, c2) := b in
  (h1 =? h2) && (w1 =? w2) && (c1 =? c2).

Inductive padding : Type := Same | Valid.

Inductive activation : Type := Relu | Tanh | Sigmoid.

(** The layer constructors used by [srgan.py], with the arguments the
    file passes to them. *)
Inductive layer : Type :=
| Input (shp : shape)
| Conv2D (filters kernel_size strides : Z) (pad : padding)
         (act : option activation)
| Activation (act : activation)
| BatchNormalization (momentum : Q)
| Add
| UpSampling2D (size : Z)
| LeakyReLU (alpha : Q)
| Dense (units : Z) (act : option activation).

(** A tensor of the graph is named by the index of the node that
    produced it. *)
Definition tensor_id : Type := nat.

Record node : Type := mkNode {
  layer_of : layer;
  inbound : list tensor_id
}.

Definition graph : Type := list node.

(** [Model(inputs, outputs)] *)
Record Model : Type := mkModel {
  inputs : list tensor_id;
  outputs : list tensor_id;
  layers : graph
}.

(** ** The builder monad: layer calls allocate nodes *)

Definition Build (A : Type) : Type := graph -> A * graph.

Definition ret {A} (a : A) : Build A := fun g => (a, g).

Definition bind {A B} (m : Build A) (k : A -> Build B) : Build B :=
  fun g => let '(a, g') := m g in k a g'.

Declare Scope build_scope.
Delimit Scope build_scope with build.
Notation "x <- m ;; k" := (bind m (fun x => k))
  (at level 61, m at next level, right associativity) : build_scope.

(** [layer(...)(x1, ..., xn)]: the new tensor is the next free index. *)
Definition call (l : layer) (ins : list tensor_id) : Build tensor_id :=
  fun g => (length g, g ++ [mkNode l ins]).

(** [for _ in range(n): a = body(a)] *)
Fixpoint for_range {A} (n : nat) (body : A -> Build A) (a : A) : Build A :=
  match n with
  | O => ret a
  | S n' => bind (body a) (for_range n' body)
  end.

(** ** Shape inference *)

(** Spatial extent after a convolution: ['same'] padding gives
    [ceil(n / strides)], ['valid'] gives [floor((n - k) / strides) + 1]. *)
Definition conv_extent (pad : padding) (n k s : Z) : Z :=
  match pad with
  | Same => (n + s - 1) / s
  | Valid => (n - k) / s + 1
  end.

Definition layer_shape (l : layer) (ins : list shape) : option shape :=
  match l, ins with
  | Input shp, [] => Some shp
  | Conv2D f k s pad _, [(h, w, _)] =>
      Some (conv_extent pad h k s, conv_extent pad w k s, f)
  | Activation _, [x] => Some x
  | BatchNormalization _, [x] => Some x
  | Add, [x; y] => if shape_eqb x y then Some x else None
  | UpSampling2D sz, [(h, w, c)] => Some (sz * h, sz * w, c)
  | LeakyReLU _, [x] => Some x
  | Dense u _, [(h, w, _)] => Some (h, w, u)
  | _, _ => None
  end.

(** All inbound shapes, or [None] when one of them is unknown. *)
Fixpoint gather {A} (known : list (option A)) (ids : list tensor_id)
  : option (list A) :=
  match ids with
  | [] => Some []
  | i :: ids' =>
      match nth i known None, gather known ids' with
      | Some x, Some xs => Some (x :: xs)
      | _, _ => None
      end
  end.

Definition node_shape (known : list (option shape)) (n : node)
  : option shape :=
  match gather known (inbound n) with
  | Some ins => layer_shape (layer_of n) ins
  | None => None
  end.

(** Shapes of all tensors of a graph, in allocation order. *)
Definition infer_shapes (g : graph) : list (option shape) :=
  fold_left (fun known n => known ++ [node_shape known n]) g [].

Definition shape_at (g : graph) (t : tensor_id) : option shape :=
  nth t (infer_shapes g) None.

Definition output_shape (m : Model) : list (option shape) :=
  map (shape_at (layers m)) (outputs m).

Definition input_shape (m : Model) : list (option shape) :=
  map (shape_at (layers m)) (inputs m).

End Keras.

Import Keras.
Local Open Scope build_scope.

Open Scope Z_scope.

(* ------------------------------------------------------------------ *)
(** * The Keras model objects: trainable flags and [compile] *)
(* ------------------------------------------------------------------ *)

(** [self.vgg], [self.discriminator], [self.generator], [self.combined] *)
Inductive model_name : Type := vgg | discriminator | generator | combined.

Definition model_name_eqb (a b : model_name) : bool :=
  match a, b with
  | vgg, vgg | discriminator, discriminator
  | generator, generator | combined, combined => true
  | _, _ => false
  end.

Inductive loss_name : Type := mse | binary_crossentropy.

(** Arguments of [compile]; a missing [loss_weights] is Keras's default
    of 1 per output. *)
Record compile_args : Type := mkCompile {
  loss : list loss_name;
  loss_weights : list Q;
  optimizer : Q * Q;
  metrics : list string
}.

(** A compiled model keeps the weights that were trainable when
    [compile] ran; [train_on_batch] updates those and no others. *)
Record compiled : Type := mkCompiled {
  compiled_with : compile_args;
  collected_trainable_weights : list model_name
}.

(** The mutable attributes of the model objects. The objects are shared:
    [self.discriminator] is the same object inside [self.combined]. *)
Record keras : Type := mkKeras {
  trainable : model_name -> bool;
  compiled_as : model_name -> option compiled
}.

(** Models are created trainable and not compiled. *)
Definition created : keras :=
  {| trainable := fun _ => true; compiled_as := fun _ => None |}.

Definition set_trainable (m : model_name) (b : bool) (k : keras) : keras :=
  {| trainable := fun n => if model_name_eqb n m then b else trainable k n;
     compiled_as := compiled_as k |}.

(** The models whose weights a model contains: itself for the three
    networks; for [combined] the three models it calls as layers. *)
Definition weighted_layers (m : model_name) : list model_name :=
  match m with
  | combined => [generator; vgg; discriminator]
  | _ => [m]
  end.

(** [model.trainable_weights]: nothing when the model is frozen,
    otherwise the weights of its layers that are not frozen. *)
Definition trainable_weights (k : keras) (m : model_name)
  : list model_name :=
  if trainable k m then filter (trainable k) (weighted_layers m) else [].

Definition compile (m : model_name) (a : compile_args) (k : keras) : keras :=
  {| trainable := trainable k;
     compiled_as := fun n =>
       if model_name_eqb n m
       then Some (mkCompiled a (trainable_weights k m))
       else compiled_as k n |}.

(* ------------------------------------------------------------------ *)
(** * class SRGAN: the attributes set by [__init__] *)
(* ------------------------------------------------------------------ *)

(** The attributes [__init__] assigns from literals, and the state of
    the four model objects. *)
Record SRGAN : Type := mkSRGAN {
  channels : Z;
  lr_height : Z;
  lr_width : Z;
  n_residual_blocks : Z;
  gf : Z;
  df : Z;
  models : keras
}.

(** The attributes [__init__] computes from them. *)
Definition lr_shape (self : SRGAN) : shape :=
  (lr_height self, lr_width self, channels self).
Definition hr_height (self : SRGAN) : Z := lr_height self * 4.
Definition hr_width (self : SRGAN) : Z := lr_width self * 4.
Definition hr_shape (self : SRGAN) : shape :=
  (hr_height self, hr_width self, channels self).

(** [patch = int(self.hr_height / 2 ** 4)]: true division, then
    truncation. *)
Definition patch (self : SRGAN) : Z := Z.quot (hr_height self) (2 ^ 4).
Definition disc_patch (self : SRGAN) : shape := (patch self, patch self, 1).

(* ------------------------------------------------------------------ *)
(** * build_generator *)
(* ------------------------------------------------------------------ *)

Definition residual_block (layer_input : tensor_id) (filters : Z)
  : Build tensor_id :=
  d <- call (Conv2D filters 3 1 Same None) [layer_input] ;;
  d <- call (Activation Relu) [d] ;;
  d <- call (BatchNormalization 0.8) [d] ;;
  d <- call (Conv2D filters 3 1 Same None) [d] ;;
  d <- call (BatchNormalization 0.8) [d] ;;
  d <- call Add [d; layer_input] ;;
  ret d.

Definition deconv2d (layer_input : tensor_id) : Build tensor_id :=
  u <- call (UpSampling2D 2) [layer_input] ;;
  u <- call (Conv2D 256 3 1 Same None) [u] ;;
  u <- call (Activation Relu) [u] ;;
  ret u.

(** The named tensors of [build_generator], kept for the statements
    that refer to them. *)
Record generator_tensors : Type := mkGenT {
  g_img_lr : tensor_id;
  g_c1 : tensor_id;
  g_r : tensor_id;
  g_c2_bn : tensor_id;
  g_c2 : tensor_id;
  g_u1 : tensor_id;
  g_u2 : tensor_id;
  g_gen_hr : tensor_id
}.

Definition generator_body (self : SRGAN) : Build generator_tensors :=
  img_lr <- call (Input (lr_shape self)) [] ;;
  c1 <- call (Conv2D 64 9 1 Same None) [img_lr] ;;
  c1 <- call (Activation Relu) [c1] ;;
  r <- residual_block c1 (gf self) ;;
  r <- for_range (Z.to_nat (n_residual_blocks self - 1))
         (fun r => residual_block r (gf self)) r ;;
  c2 <- call (Conv2D 64 3 1 Same None) [r] ;;
  c2_bn <- call (BatchNormalization 0.8) [c2] ;;
  c2 <- call Add [c2_bn; c1] ;;
  u1 <- deconv2d c2 ;;
  u2 <- deconv2d u1 ;;
  gen_hr <- call (Conv2D (channels self) 9 1 Same (Some Tanh)) [u2] ;;
  ret (mkGenT img_lr c1 r c2_bn c2 u1 u2 gen_hr).

Definition build_generator (self : SRGAN) : Model :=
  let '(t, g) := generator_body self [] in
  mkModel [g_img_lr t] [g_gen_hr t] g.

(* ------------------------------------------------------------------ *)
(** * build_discriminator *)
(* ------------------------------------------------------------------ *)

(** [d_block(layer_input, filters, strides=1, bn=True)] *)
Definition d_block (layer_input : tensor_id) (filters : Z)
  (strides : Z) (bn : bool) : Build tensor_id :=
  d <- call (Conv2D filters 3 strides Same None) [layer_input] ;;
  d <- call (LeakyReLU 0.2) [d] ;;
  if bn then call (BatchNormalization 0.8) [d] else ret d.

Definition discriminator_body (self : SRGAN) : Build (tensor_id * tensor_id) :=
  d0 <- call (Input (hr_shape self)) [] ;;
  d1 <- d_block d0 (df self) 1 false ;;
  d2 <- d_block d1 (df self) 2 true ;;
  d3 <- d_block d2 (df self * 2) 1 true ;;
  d4 <- d_block d3 (df self * 2) 2 true ;;
  d5 <- d_block d4 (df self * 4) 1 true ;;
  d6 <- d_block d5 (df self * 4) 2 true ;;
  d7 <- d_block d6 (df self * 8) 1 true ;;
  d8 <- d_block d7 (df self * 8) 2 true ;;
  d9 <- call (Dense (df self * 16) None) [d8] ;;
  d10 <- call (LeakyReLU 0.2) [d9] ;;
  validity <- call (Dense 1 (Some Sigmoid)) [d10] ;;
  ret (d0, validity).

Definition build_discriminator (self : SRGAN) : Model :=
  let '((d0, validity), g) := discriminator_body self [] in
  mkModel [d0] [validity] g.


(* ------------------------------------------------------------------ *)
(** * Inspecting a layer graph *)
(* ------------------------------------------------------------------ *)

Definition is_upsampling (l : layer) : bool :=
  match l with UpSampling2D _ => true | _ => false end.

Definition is_batchnorm (l : layer) : bool :=
  match l with BatchNormalization _ => true | _ => false end.

Definition is_relu (l : layer) : bool :=
  match l with Activation Relu => true | _ => false end.

(** A convolution without activation, of the given kernel size, stride 1
    and ['same'] padding. *)
Definition is_conv (k : Z) (l : layer) : bool :=
  match l with
  | Conv2D _ k' s Same None => (k' =? k) && (s =? 1)
  | _ => false
  end.

Definition strides_of (l : layer) : option Z :=
  match l with Conv2D _ _ s _ _ => Some s | _ => None end.

Definition count_layers (p : layer -> bool) (g : graph) : nat :=
  List.length (filter (fun n => p (layer_of n)) g).

(** Every node reads tensors allocated before it. *)
Definition well_formed (g : graph) : bool :=
  forallb (fun ni : nat * node =>
             forallb (fun j => (j <? fst ni)%nat) (inbound (snd ni)))
          (combine (seq 0 (List.length g)) g).

(** Follow single-input layers backwards from [t], the kinds of the
    layers given from the last applied to the first; the result is the
    tensor the chain started from. *)
Fixpoint trace_back (g : graph) (kinds : list (layer -> bool))
  (t : tensor_id) : option tensor_id :=
  match kinds with
  | [] => Some t
  | k :: kinds' =>
      match nth_error g t with
      | Some (mkNode l [src]) =>
          if k l then trace_back g kinds' src else None
      | _ => None
      end
  end.

(** The layers of [residual_block], last to first, without the [Add]. *)
Definition residual_layers : list (layer -> bool) :=
  [is_batchnorm; is_conv 3; is_batchnorm; is_relu; is_conv 3].

(** [Some (d, x)] when tensor [out] is [Add()([d, x])] and [d] is [x]
    passed through the layers of a residual block. *)
Definition residual_at (g : graph) (out : tensor_id)
  : option (tensor_id * tensor_id) :=
  match nth_error g out with
  | Some (mkNode Add [d; x]) =>
      match trace_back g residual_layers d with
      | Some x' => if (x' =? x)%nat then Some (d, x) else None
      | None => None
      end
  | _ => None
  end.

(** The residual blocks of a graph as (input, output) pairs, in
    allocation order. *)
Definition residual_blocks (g : graph) : list (tensor_id * tensor_id) :=
  flat_map (fun out =>
              match residual_at g out with
              | Some (_, x) => [(x, out)]
              | None => []
              end)
           (seq 0 (List.length g)).

(** The spatial extent (height, width) of a tensor. *)
Definition extent_at (g : graph) (t : tensor_id) : option (Z * Z) :=
  match shape_at g t with
  | Some (h, w, _) => Some (h, w)
  | None => None
  end.

(** Node [i] yields a tensor of the spatial extent of each tensor it
    reads. *)
Definition keeps_extent (g : graph) (i : tensor_id) : bool :=
  match nth_error g i, extent_at g i with
  | Some n, Some (h, w) =>
      forallb (fun j =>
                 match extent_at g j with
                 | Some (h', w') => (h' =? h) && (w' =? w)
                 | None => false
                 end)
              (inbound n)
  | _, _ => false
  end.

(** Node [i] yields a tensor [k] times as high and wide as the one it
    reads. *)
Definition scales_extent (k : Z) (g : graph) (i : tensor_id) : bool :=
  match nth_error g i, extent_at g i with
  | Some (mkNode _ [j]), Some (h, w) =>
      match extent_at g j with
      | Some (h', w') => (h =? k * h') && (w =? k * w')
      | None => false
      end
  | _, _ => false
  end.

(** What is asked of every layer of the generator: an upsampling layer
    doubles height and width, every other layer keeps them, and every
    convolution has stride 1 and ['same'] padding. *)
Definition generator_layer_ok (g : graph) (i : tensor_id) : Prop :=
  match nth_error g i with
  | Some (mkNode (Input _) _) => True
  | Some (mkNode (UpSampling2D k) _) => k = 2 /\ scales_extent 2 g i = true
  | Some (mkNode (Conv2D _ _ s p _) _) =>
      s = 1 /\ p = Same /\ keeps_extent g i = true
  | Some (mkNode _ _) => keeps_extent g i = true
  | None => False
  end.

Definition is_same (p : padding) : bool :=
  match p with Same => true | Valid => false end.

Definition generator_layer_okb (g : graph) (i : tensor_id) : bool :=
  match nth_error g i with
  | Some (mkNode (Input _) _) => true
  | Some (mkNode (UpSampling2D k) _) => (k =? 2) && scales_extent 2 g i
  | Some (mkNode (Conv2D _ _ s p _) _) =>
      (s =? 1) && is_same p && keeps_extent g i
  | Some (mkNode _ _) => keeps_extent g i
  | None => false
  end.

(** Node [i] reads a tensor [k] times as high and wide as the one it
    yields. *)
Definition shrinks_extent (k : Z) (g : graph) (i : tensor_id) : bool :=
  match nth_error g i, extent_at g i with
  | Some (mkNode _ [j]), Some (h, w) =>
      match extent_at g j with
      | Some (h', w') => (h' =? k * h) && (w' =? k * w)
      | None => false
      end
  | _, _ => false
  end.

Definition is_stride2 (l : layer) : bool :=
  match l with Conv2D _ _ 2 _ _ => true | _ => false end.

(** What is asked of every layer of the discriminator: a convolution has
    ['same'] padding and stride 1 or 2, and divides height and width by
    its stride; every other layer, [Dense] included, keeps them. *)
Definition discriminator_layer_ok (g : graph) (i : tensor_id) : Prop :=
  match nth_error g i with
  | Some (mkNode (Input _) _) => True
  | Some (mkNode (Conv2D _ _ s p _) _) =>
      (s = 1 \/ s = 2) /\ p = Same /\ shrinks_extent s g i = true
  | Some (mkNode _ _) => keeps_extent g i = true
  | None => False
  end.

Definition discriminator_layer_okb (g : graph) (i : tensor_id) : bool :=
  match nth_error g i with
  | Some (mkNode (Input _) _) => true
  | Some (mkNode (Conv2D _ _ s p _) _) =>
      ((s =? 1) || (s =? 2)) && is_same p && shrinks_extent s g i
  | Some (mkNode _ _) => keeps_extent g i
  | None => false
  end.

(* ------------------------------------------------------------------ *)
(** * The wiring of [self.combined] and the model statements of [__init__] *)
(* ------------------------------------------------------------------ *)

(** Symbolic tensors of the models that are wired from other models. *)
Inductive symbolic : Type :=
| Placeholder (name : string) (shp : shape)
| Apply (m : model_name) (x : symbolic).

Record functional : Type := mkFunctional {
  f_inputs : list symbolic;
  f_outputs : list symbolic
}.

(** [self.combined = Model([img_lr, img_hr], [validity, fake_features])] *)
Definition combined_model (self : SRGAN) : functional :=
  let img_hr := Placeholder "img_hr" (hr_shape self) in
  let img_lr := Placeholder "img_lr" (lr_shape self) in
  let fake_hr := Apply generator img_lr in
  let fake_features := Apply vgg fake_hr in
  let validity := Apply discriminator fake_hr in
  mkFunctional [img_lr; img_hr] [validity; fake_features].

(** The statements of [__init__] that touch the model objects, in the
    order of the source. *)
Definition init_models (k : keras) : keras :=
  let optimizer := (0.0002, 0.5)%Q in
  let k := set_trainable vgg false k in
  let k := compile vgg
             (mkCompile [mse] [1%Q] optimizer ["accuracy"%string]) k in
  let k := compile discriminator
             (mkCompile [mse] [1%Q] optimizer ["accuracy"%string]) k in
  let k := set_trainable discriminator false k in
  let k := compile combined
             (mkCompile [binary_crossentropy; mse] [1e-3; 1]%Q optimizer [])
             k in
  k.


(** The object [SRGAN()] builds. *)
Definition srgan : SRGAN :=
  {| channels := 3; lr_height := 64; lr_width := 64;
     n_residual_blocks := 16; gf := 64; df := 64;
     models := init_models created |}.

(* ------------------------------------------------------------------ *)
(** * Values computed by a layer graph *)
(* ------------------------------------------------------------------ *)

Module Values.

Local Open Scope R_scope.

(** One image (or feature map), flattened. *)
Definition tensor : Type := list R.

Definition relu (x : R) : R := Rmax 0 x.

Definition sigmoid (x : R) : R := 1 / (1 + exp (- x)).

Definition activate (a : activation) (x : R) : R :=
  match a with
  | Relu => relu x
  | Tanh => tanh x
  | Sigmoid => sigmoid x
  end.

(** [activation=None] is the identity. *)
Definition activate_opt (a : option activation) (x : R) : R :=
  match a with
  | Some a' => activate a' x
  | None => x
  end.

Definition leaky_relu (alpha : Q) (x : R) : R :=
  if Rle_dec 0 x then x else Q2R alpha * x.

(** [Add()([a, b])], elementwise. *)
Fixpoint tensor_add (a b : tensor) : tensor :=
  match a, b with
  | x :: a', y :: b' => (x + y) :: tensor_add a' b'
  | _, _ => []
  end.

Section Graph.

(** What the weights of the layer at a node compute from the inbound
    tensors, before the layer's activation: convolution and bias for
    [Conv2D], matrix product and bias for [Dense], the normalisation for
    [BatchNormalization], the pixel repetition for [UpSampling2D]. *)
Variable trained : tensor_id -> layer -> list tensor -> tensor.

(** The tensor fed to the model's [Input]. *)
Variable feed : tensor.

Definition layer_value (i : tensor_id) (l : layer) (ins : list tensor)
  : tensor :=
  match l with
  | Input _ => feed
  | Conv2D _ _ _ _ act => map (activate_opt act) (trained i l ins)
  | Activation a => map (activate a) (nth 0 ins [])
  | BatchNormalization _ => trained i l ins
  | Add => tensor_add (nth 0 ins []) (nth 1 ins [])
  | UpSampling2D _ => trained i l ins
  | LeakyReLU alpha => map (leaky_relu alpha) (nth 0 ins [])
  | Dense _ act => map (activate_opt act) (trained i l ins)
  end.

Definition node_value (vals : list tensor) (i : tensor_id) (n : node)
  : tensor :=
  layer_value i (layer_of n) (map (fun j => nth j vals []) (inbound n)).

(** The values known so far, and that of one more node. *)
Definition eval_step (vals : list tensor) (n : node) : list tensor :=
  vals ++ [node_value vals (length vals) n].

(** Values of all tensors of a graph, in allocation order. *)
Definition eval_graph (g : graph) : list tensor :=
  fold_left eval_step g [].

Definition value_at (g : graph) (t : tensor_id) : tensor :=
  nth t (eval_graph g) [].

(** The (single) output of a model on one input. *)
Definition run_model (m : Model) : tensor :=
  value_at (layers m) (hd O (outputs m)).

End Graph.

End Values.

Import Values.

(* ------------------------------------------------------------------ *)
(** * Arrays, events and the run monad *)
(* ------------------------------------------------------------------ *)

(** A numpy array with a leading batch axis, kept as its items along
    that axis, each flattened; [nd_shape] is the shape of the whole. *)
Record ndarray : Type := mkArray {
  nd_shape : list Z;
  items : list tensor
}.

Definition shape_list (s : shape) : list Z :=
  let '(h, w, c) := s in [h; w; c].

Definition size_of (shp : list Z) : nat :=
  Z.to_nat (fold_right Z.mul 1 shp).

(** [np.ones(shp)] and [np.zeros(shp)] *)
Definition np_full (v : R) (shp : list Z) : ndarray :=
  mkArray shp (repeat (repeat v (size_of (tl shp))) (Z.to_nat (hd 0 shp))).
Definition np_ones : list Z -> ndarray := np_full 1%R.
Definition np_zeros : list Z -> ndarray := np_full 0%R.

(** Elementwise arithmetic on an array. *)
Definition nd_map (f : R -> R) (a : ndarray) : ndarray :=
  mkArray (nd_shape a) (map (map f) (items a)).

(** [str(n)] and ["%d" % n] for an integer. *)
Definition str (n : Z) : string := NilEmpty.string_of_int (Z.to_int n).

(** Keyword arguments of [DataLoader.load_data]; [None] is an argument
    the call leaves to its default. *)
Record load_args : Type := mkLoad {
  batch_size : Z;
  is_testing : option bool;
  is_pred : option bool
}.

Inductive event : Type :=
| LoadData (a : load_args)
| Predict (m : model_name) (x : ndarray)
| TrainOnBatch (m : model_name) (x y : list ndarray)
| PrintProgress (epoch : Z)
| SaveWeights (path : string)
| LoadWeights (path : string)
| Makedirs (path : string)
| Imshow (row col : nat) (title : string) (img : tensor)
| Savefig (path : string)
| Imsave (path : string) (img : tensor)
| Psnr (img_real img_generated : list Z)
| Ssim (img_real img_generated : list Z)
| PrintValues (vs : list R)
| PrintAverage (label : string) (v : R)
| PrintEnd.

(** Calls into numpy, matplotlib, skimage, Keras and the file system are
    recorded and taken to succeed, with three exceptions: Keras refuses
    to train a model that was not compiled ([RuntimeError]),
    [plt.subplots] refuses a grid without rows ([ValueError]), and an
    index that an array does not have raises [IndexError]. The one
    exception the methods raise without a library is that of [%]. *)
Inductive exn : Type :=
| ZeroDivisionError
| RuntimeError
| IndexError
| ValueError.

(** A small environment on which [train] can be run: networks without
    weights, a loader whose batches hold [batch_size] images of one pixel. *)
Module Toy.

Definition trained_by (_ : unit) (_ : tensor_id) (_ : layer)
  (ins : list tensor) : tensor := nth 0 ins [].
Definition vgg_features (_ : unit) (x : tensor) : tensor := x.
Definition optimizer_step (_ : model_name) (ws : model_name -> unit)
  (_ _ : list ndarray) (n : model_name) : unit := ws n.
Definition batch_losses (_ : model_name) (_ : model_name -> unit)
  (_ _ : list ndarray) : list R := [0%R; 1%R].
Definition load_data (_ : nat) (a : load_args) : ndarray * ndarray :=
  (np_full 0%R [batch_size a; 1; 1; 1], np_full 0%R [batch_size a; 1; 1; 1]).
Definition ws0 (_ : model_name) : unit := tt.

(** A loader whose batches always hold two images, and the rest of what
    [test_images] needs. *)
Definition load_pairs (_ : nat) (_ : load_args) : ndarray * ndarray :=
  (np_full 0%R [2; 1; 1; 1], np_full 0%R [2; 1; 1; 1]).
Definition weights_file (_ : string) : unit := tt.
Definition psnr (a b : list Z) : R := IZR (Z.of_nat (List.length a)).
Definition ssim (a b : list Z) : R := 1%R.

(** Objects of other sizes than the one [__init__] builds. *)
Definition small : SRGAN :=
  {| channels := 3; lr_height := 8; lr_width := 8;
     n_residual_blocks := 2; gf := 64; df := 16;
     models := init_models created |}.
Definition oblong : SRGAN :=
  {| channels := 1; lr_height := 30; lr_width := 41;
     n_residual_blocks := 0; gf := 64; df := 8;
     models := init_models created |}.
Definition odd : SRGAN :=
  {| channels := 3; lr_height := 65; lr_width := 65;
     n_residual_blocks := 16; gf := 64; df := 64;
     models := init_models created |}.

End Toy.

Section Program.

(** The weights of one network. *)
Variable W : Type.

(** What the networks compute from their weights. *)
Variable trained_by : W -> tensor_id -> layer -> list tensor -> tensor.
Variable vgg_features : W -> tensor -> tensor.

(** One optimizer step of a compiled model on a batch: the new weights
    it proposes for every network, and the numbers [train_on_batch]
    returns (the loss, then the metrics). *)
Variable optimizer_step :
  model_name -> (model_name -> W) -> list ndarray -> list ndarray ->
  model_name -> W.
Variable batch_losses :
  model_name -> (model_name -> W) -> list ndarray -> list ndarray -> list R.

(** [data_loader.load_data]: the pair [(imgs_hr, imgs_lr)] returned by
    the call number [n] of the run. *)
Variable load_data : nat -> load_args -> ndarray * ndarray.

(** Contents of a weight file. *)
Variable weights_file : string -> W.

(** [skimage.metrics] *)
Variable psnr : list Z -> list Z -> R.
Variable ssim : list Z -> list Z -> R.

(** The value of a Keras loss on a batch of targets and predictions. *)
Variable loss_value : loss_name -> ndarray -> ndarray -> R.

Record world : Type := mkWorld {
  weights : model_name -> W;
  loader_calls : nat;
  trace : list event
}.

Definition Run (A : Type) : Type := world -> (exn + A) * world.

Definition pure {A} (a : A) : Run A := fun w => (inr a, w).

Definition raise {A} (e : exn) : Run A := fun w => (inl e, w).

Definition seq_run {A B} (m : Run A) (k : A -> Run B) : Run B :=
  fun w =>
    match m w with
    | (inr a, w') => k a w'
    | (inl e, w') => (inl e, w')
    end.

Declare Scope run_scope.
Delimit Scope run_scope with run.
Notation "x <- m ;; k" := (seq_run m (fun x => k))
  (at level 61, m at next level, right associativity) : run_scope.
Notation "' pat <- m ;; k" := (seq_run m (fun x => match x with pat => k end))
  (at level 61, pat pattern, m at next level, right associativity) : run_scope.
Notation "m ;;; k" := (seq_run m (fun _ => k))
  (at level 61, right associativity) : run_scope.
Local Open Scope run_scope.

(** The world after some more events. *)
Definition log (evs : list event) (w : world) : world :=
  mkWorld (weights w) (loader_calls w) (trace w ++ evs).

Definition emit (e : event) : Run unit :=
  fun w => (inr tt, log [e] w).

(** Weights after a training step that may touch the networks of
    [touched] only. *)
Definition updated (touched : list model_name) (new old : model_name -> W)
  : model_name -> W :=
  fun n => if existsb (model_name_eqb n) touched then new n else old n.

Definition when (b : bool) (m : Run unit) : Run unit :=
  if b then m else pure tt.

(** [for x in xs: body(x)] *)
Fixpoint for_each {A} (xs : list A) (body : A -> Run unit) : Run unit :=
  match xs with
  | [] => pure tt
  | x :: xs' => body x ;;; for_each xs' body
  end.

(** A loop that reassigns a local variable of the enclosing function. *)
Fixpoint for_each_with {A S} (xs : list A) (body : S -> A -> Run S) (s : S)
  : Run S :=
  match xs with
  | [] => pure s
  | x :: xs' => s' <- body s x ;; for_each_with xs' body s'
  end.

(** [zip] and [enumerate] *)
Definition zip {A B} : list A -> list B -> list (A * B) := @combine A B.
Definition enumerate {A} (xs : list A) : list (nat * A) :=
  combine (seq 0 (List.length xs)) xs.

(** [range(n)] *)
Definition range (n : Z) : list Z :=
  map Z.of_nat (seq 0 (Z.to_nat n)).

(** [a % b] on integers *)
Definition py_mod (a b : Z) : Run Z :=
  if b =? 0 then raise ZeroDivisionError else pure (a mod b).

(** ** The library calls *)

Definition data_loader_load_data (a : load_args) : Run (ndarray * ndarray) :=
  fun w =>
    (inr (load_data (loader_calls w) a),
     mkWorld (weights w) (S (loader_calls w)) (trace w ++ [LoadData a])).

Definition graph_of (self : SRGAN) (m : model_name) : option Model :=
  match m with
  | generator => Some (build_generator self)
  | discriminator => Some (build_discriminator self)
  | _ => None
  end.

(** One network applied to one image. *)
Definition apply_model (self : SRGAN) (ws : model_name -> W)
  (m : model_name) (x : tensor)
  : tensor :=
  match m with
  | generator => run_model (trained_by (ws generator)) x (build_generator self)
  | discriminator =>
      run_model (trained_by (ws discriminator)) x (build_discriminator self)
  | vgg => vgg_features (ws vgg) x
  | combined => []
  end.

Definition output_shape_of (self : SRGAN) (m : model_name) : list Z :=
  match graph_of self m with
  | Some g =>
      match output_shape g with
      | [Some s] => shape_list s
      | _ => []
      end
  | None => []
  end.

Definition forward (self : SRGAN) (ws : model_name -> W)
  (m : model_name) (x : ndarray)
  : ndarray :=
  mkArray (hd 0 (nd_shape x) :: output_shape_of self m)
          (map (apply_model self ws m) (items x)).

(** [model.predict(x)] for the three networks. *)
Definition predict (self : SRGAN) (m : model_name) (x : ndarray)
  : Run ndarray :=
  fun w =>
    (inr (forward self (weights w) m x),
     mkWorld (weights w) (loader_calls w) (trace w ++ [Predict m x])).

(** [model.train_on_batch(x, y)]: only the weights collected when the
    model was compiled are replaced. *)
Definition train_on_batch (self : SRGAN) (m : model_name)
  (x y : list ndarray) : Run (list R) :=
  fun w =>
    match compiled_as (models self) m with
    | None => (inl RuntimeError, w)
    | Some c =>
        let ws := weights w in
        (inr (batch_losses m ws x y),
         mkWorld
           (updated (collected_trainable_weights c)
                    (optimizer_step m ws x y) ws)
           (loader_calls w)
           (trace w ++ [TrainOnBatch m x y]))
    end.

(** [self.generator.load_weights(path)] *)
Definition load_weights (path : string) : Run unit :=
  fun w =>
    (inr tt,
     mkWorld
       (fun n => if model_name_eqb n generator then weights_file path
                 else weights w n)
       (loader_calls w)
       (trace w ++ [LoadWeights path])).

(** [fig, axs = plt.subplots(r, c)] for the two or three columns of the
    callers: matplotlib refuses a grid of no rows. *)
Definition subplots (r c : nat) : Run unit :=
  if (r =? 0)%nat then raise ValueError else pure tt.

(** [axs[row, col]]: for a single row [plt.subplots] yields a
    one-dimensional array of axes, which two indices do not index. *)
Definition axs_at (r row col : nat) : Run unit :=
  if (r =? 1)%nat then raise IndexError else pure tt.

(** [image[row]] *)
Definition item_at (image : ndarray) (row : nat) : Run tensor :=
  match nth_error (items image) row with
  | Some img => pure img
  | None => raise IndexError
  end.

(** The grid of subplots: [fig, axs = plt.subplots(r, c)], then
    [for row in range(r): for col, image in enumerate(images):
    axs[row, col].imshow(image[row]) ...] *)
Definition show_grid (r : nat) (titles : list string) (images : list ndarray)
  : Run unit :=
  subplots r (List.length images) ;;;
  for_each (seq 0 r) (fun row =>
    for_each (enumerate images) (fun ci =>
      let '(col, image) := ci in
      axs_at r row col ;;;
      img <- item_at image row ;;
      emit (Imshow row col (nth col titles EmptyString) img))).


(** ** The objective of a compiled model *)

Definition placeholder_name (s : symbolic) : string :=
  match s with
  | Placeholder name _ => name
  | Apply _ _ => EmptyString
  end.

Fixpoint lookup (name : string) (feeds : list (string * ndarray)) : ndarray :=
  match feeds with
  | [] => mkArray [] []
  | (n, a) :: feeds' => if String.eqb n name then a else lookup name feeds'
  end.

Fixpoint eval_symbolic (self : SRGAN) (ws : model_name -> W)
  (feeds : list (string * ndarray)) (s : symbolic) : ndarray :=
  match s with
  | Placeholder name _ => lookup name feeds
  | Apply m x => forward self ws m (eval_symbolic self ws feeds x)
  end.

(** The outputs of a wired model on a list of input batches. *)
Definition model_outputs (self : SRGAN) (ws : model_name -> W)
  (f : functional) (xs : list ndarray) : list ndarray :=
  map (eval_symbolic self ws (combine (map placeholder_name (f_inputs f)) xs))
      (f_outputs f).

(** The scalar a training step minimises: the losses of the outputs, in
    the order of the outputs, each times its weight, summed. *)
Definition objective (c : compile_args) (y_true y_pred : list ndarray) : R :=
  fold_right Rplus 0%R
    (map (fun lwtp : loss_name * Q * (ndarray * ndarray) =>
            let '(l, wt, (t, p)) := lwtp in (Q2R wt * loss_value l t p)%R)
         (combine (combine (loss c) (loss_weights c))
                  (combine y_true y_pred))).

Definition combined_objective (self : SRGAN) (ws : model_name -> W)
  (x y : list ndarray) : option R :=
  match compiled_as (models self) combined with
  | Some c =>
      Some (objective (compiled_with c) y
              (model_outputs self ws (combined_model self) x))
  | None => None
  end.

(** [self.generator.save_weights(path)] *)
Definition save_weights (path : string) : Run unit := emit (SaveWeights path).

(** [0.5 * a + 0.5] *)
Definition rescale (a : ndarray) : ndarray :=
  nd_map (fun x => 0.5 * x + 0.5)%R a.

(** [a.shape[0]] *)
Definition len (a : ndarray) : nat := length (items a).

(** ** sample_images_new *)

Record sample_locals : Type := mkSample {
  s_imgs_lr : ndarray;
  s_fake_hr : ndarray;
  s_imgs_hr : ndarray
}.

Definition sample_images_new (self : SRGAN) (epoch : Z) : Run sample_locals :=
  emit (Makedirs "images/") ;;;
  ' (imgs_hr, imgs_lr) <-
      data_loader_load_data (mkLoad 1 (Some true) (Some true)) ;;
  fake_hr <- predict self generator imgs_lr ;;
  let imgs_lr := rescale imgs_lr in
  let fake_hr := rescale fake_hr in
  let imgs_hr := rescale imgs_hr in
  let r := len imgs_hr in
  let titles :=
    [("Generated  epoch: " ++ str epoch)%string; "Original"; "Low"]%string in
  show_grid r titles [fake_hr; imgs_hr; imgs_lr] ;;;
  emit (Savefig ("images/" ++ str epoch ++ ".png")) ;;;
  pure (mkSample imgs_lr fake_hr imgs_hr).

(** ** train *)

(** The locals of one iteration of the loop of [train] that outlive
    it or are named by the statements below. *)
Record epoch_locals : Type := mkEpoch {
  e_sample_interval : Z;
  e_d_loss : list R;
  e_g_loss : list R
}.

(** The body of [for epoch in range(epochs)] up to the progress line:
    the interval of the epoch and its three training steps. *)
Definition train_steps (self : SRGAN) (batch_size sample_interval epoch : Z)
  : Run epoch_locals :=
  let sample_interval := if epoch >? 30 then 10 else sample_interval in
  let sample_interval := if epoch >? 100 then 50 else sample_interval in
  ' (imgs_hr, imgs_lr) <-
      data_loader_load_data (mkLoad batch_size None None) ;;
  fake_hr <- predict self generator imgs_lr ;;
  let valid := np_ones (batch_size :: shape_list (disc_patch self)) in
  let fake := np_zeros (batch_size :: shape_list (disc_patch self)) in
  d_loss_real <- train_on_batch self discriminator [imgs_hr] [valid] ;;
  d_loss_fake <- train_on_batch self discriminator [fake_hr] [fake] ;;
  let d_loss := map (Rmult 0.5) (tensor_add d_loss_real d_loss_fake) in
  ' (imgs_hr, imgs_lr) <-
      data_loader_load_data (mkLoad batch_size None None) ;;
  let valid := np_ones (batch_size :: shape_list (disc_patch self)) in
  image_features <- predict self vgg imgs_hr ;;
  g_loss <- train_on_batch self combined
              [imgs_lr; imgs_hr] [valid; image_features] ;;
  emit (PrintProgress epoch) ;;;
  pure (mkEpoch sample_interval d_loss g_loss).

(** The whole body of [for epoch in range(epochs)]: these steps, then
    the two tests that save the sample figure and the weights. *)
Definition train_epoch (self : SRGAN) (batch_size sample_interval epoch : Z)
  : Run epoch_locals :=
  l <- train_steps self batch_size sample_interval epoch ;;
  let sample_interval := e_sample_interval l in
  rem <- py_mod epoch sample_interval ;;
  when (rem =? 0) (sample_images_new self epoch ;;; pure tt) ;;;
  rem500 <- py_mod epoch 500 ;;
  when ((rem500 =? 0) && (epoch >? 1))
       (save_weights ("./saved_model/" ++ str epoch ++ ".h5")) ;;;
  pure l.

(** [train(self, epochs, batch_size=1, sample_interval=5)] *)
Definition train (self : SRGAN) (epochs batch_size sample_interval : Z)
  : Run unit :=
  for_each_with (range epochs)
    (fun sample_interval epoch =>
       l <- train_epoch self batch_size sample_interval epoch ;;
       pure (e_sample_interval l))
    sample_interval ;;;
  pure tt.

(** ** test_images *)

(** [x.astype(np.uint8)] on a float: truncation toward zero, then the
    low eight bits. *)
Definition Ztrunc (x : R) : Z :=
  if Rle_dec 0 x then Zfloor x else Zceil x.
Definition astype_uint8 (x : R) : Z := Ztrunc x mod 256.

(** [((img + 1) * 127.5).astype(np.uint8)] *)
Definition to_uint8 (img : tensor) : list Z :=
  map (fun v => astype_uint8 ((v + 1) * 127.5)%R) img.

(** [np.mean(values)] *)
Definition np_mean (values : list R) : R :=
  (fold_right Rplus 0 values / INR (length values))%R.

Record test_locals : Type := mkTest {
  t_imgs_lr : ndarray;
  t_fake_hr : ndarray;
  t_imgs_hr : ndarray;
  t_psnr_values : list R;
  t_ssim_values : list R;
  t_avg_psnr : R;
  t_avg_ssim : R
}.

(** [test_images(self, batch_size=1)] *)
Definition test_images (self : SRGAN) (batch_size : Z) : Run test_locals :=
  ' (imgs_hr, imgs_lr) <-
      data_loader_load_data (mkLoad batch_size None (Some true)) ;;
  emit (Makedirs "saved_model/") ;;;
  load_weights ("./saved_model/" ++ str 2000 ++ ".h5") ;;;
  fake_hr <- predict self generator imgs_lr ;;
  let r := len imgs_hr in
  let imgs_lr := rescale imgs_lr in
  let fake_hr := rescale fake_hr in
  let imgs_hr := rescale imgs_hr in
  let titles := ["Low resolution input"; "Generated Super resolution"]%string in
  show_grid r titles [imgs_lr; fake_hr] ;;;
  emit (Savefig "./result.png") ;;;
  for_each (enumerate (zip (items imgs_lr) (items fake_hr))) (fun e =>
    let '(i, (lr_img, hr_img)) := e in
    let n := str (Z.of_nat i + 1) in
    emit (Imsave ("./res/bicubic_downsampling_" ++ n ++ ".png") lr_img) ;;;
    emit (Imsave ("./res/gen_high_resolution_" ++ n ++ ".png") hr_img)) ;;;
  ' (psnr_values, ssim_values) <-
      for_each_with (zip (items imgs_hr) (items fake_hr))
        (fun acc pair =>
           let '(psnr_values, ssim_values) := acc in
           let '(img_real, img_generated) := pair in
           let img_real := to_uint8 img_real in
           let img_generated := to_uint8 img_generated in
           emit (Psnr img_real img_generated) ;;;
           let psnr_value := psnr img_real img_generated in
           let psnr_values := psnr_values ++ [psnr_value] in
           emit (Ssim img_real img_generated) ;;;
           let ssim_value := ssim img_real img_generated in
           let ssim_values := ssim_values ++ [ssim_value] in
           pure (psnr_values, ssim_values))
        ([], []) ;;
  emit (PrintValues psnr_values) ;;;
  emit (PrintValues ssim_values) ;;;
  let avg_psnr := np_mean psnr_values in
  let avg_ssim := np_mean ssim_values in
  emit (PrintAverage "Average PSNR" avg_psnr) ;;;
  emit (PrintAverage "Average SSIM" avg_ssim) ;;;
  emit PrintEnd ;;;
  pure (mkTest imgs_lr fake_hr imgs_hr psnr_values ssim_values
               avg_psnr avg_ssim).


(** ** Building: what a builder adds to a graph *)

(** From graph [g] the builder [m] only adds nodes, and its result and
    the graph it leaves satisfy [Q]. *)
Definition builds {A} (m : Build A) (g : graph)
  (Q : A -> graph -> Prop) : Prop :=
  (exists d, snd (m g) = g ++ d) /\ Q (fst (m g)) (snd (m g)).

(** ** What the runs leave behind *)

(** The events of [show_grid]. *)
Definition grid_events (r : nat) (titles : list string)
  (images : list ndarray) : list event :=
  flat_map (fun row =>
    flat_map (fun ci : nat * ndarray =>
                [Imshow row (fst ci) (nth (fst ci) titles EmptyString)
                        (nth row (items (snd ci)) [])])
             (enumerate images))
    (seq 0 r).

(** A computation that only records events: in every world its result
    is [res] and the events it adds are [evs]. *)
Definition logs {A} (m : Run A) (res : exn + A) (evs : list event) : Prop :=
  forall w, m w = (res, log evs w).

(** An [imshow] of the item [row] of the array of column [col], under
    the title of that column. *)
Definition shows (titles : list string) (images : list ndarray) (ev : event)
  : Prop :=
  match ev with
  | Imshow row col title img =>
      title = nth col titles EmptyString /\
      exists image,
        nth_error images col = Some image /\
        nth_error (items image) row = Some img
  | _ => False
  end.

(** The files written by [savefig] and [save_weights]. *)
Definition is_saved (e : event) : bool :=
  match e with
  | Savefig _ | SaveWeights _ => true
  | _ => false
  end.

Definition saved (tr : list event) : list event := filter is_saved tr.

(** The interval in force at epoch [e] of a call
    [train(epochs, batch_size, sample_interval)]. *)
Definition interval_at (sample_interval e : Z) : Z :=
  if e <=? 30 then sample_interval
  else if e <=? 100 then 10
  else 50.

(** A training step. *)
Definition is_training (e : event) : bool :=
  match e with
  | TrainOnBatch _ _ _ => true
  | _ => false
  end.

(** The files an epoch writes when its interval is [interval]. *)
Definition epoch_saved (interval e : Z) : list event :=
  (if e mod interval =? 0
   then [Savefig ("images/" ++ str e ++ ".png")] else [])
  ++ (if (e mod 500 =? 0) && (e >? 1)
      then [SaveWeights ("./saved_model/" ++ str e ++ ".h5")] else []).

(** The calls of the two metrics on one pair of images. *)
Definition metric_events (pair : tensor * tensor) : list event :=
  [Psnr (to_uint8 (fst pair)) (to_uint8 (snd pair));
   Ssim (to_uint8 (fst pair)) (to_uint8 (snd pair))].

Definition is_metric (e : event) : bool :=
  match e with
  | Psnr _ _ | Ssim _ _ => true
  | _ => false
  end.

(** The images written for one element of the batch. *)
Definition imsave_events (e : nat * (tensor * tensor)) : list event :=
  let '(i, (lr_img, hr_img)) := e in
  let n := str (Z.of_nat i + 1) in
  [Imsave ("./res/bicubic_downsampling_" ++ n ++ ".png") lr_img;
   Imsave ("./res/gen_high_resolution_" ++ n ++ ".png") hr_img].

(** ** Counting what a builder adds *)

Definition is_add (l : layer) : bool :=
  match l with Add => true | _ => false end.

(** Whatever the graph it starts from, the builder [m] adds [k] nodes,
    [c] of which are [Add] layers. *)
Definition adds_nodes {A} (m : Build A) (k c : nat) : Prop :=
  forall g,
    List.length (snd (m g)) = (List.length g + k)%nat /\
    count_layers is_add (snd (m g)) = (count_layers is_add g + c)%nat.

(** The tensor [t] of [g] has no shape: the layer that yields it was
    called on inputs it does not accept. *)
Definition unshaped (g : graph) (t : tensor_id) : Prop :=
  (t < List.length g)%nat /\ shape_at g t = None.

(** Height or width after the four stride-2 convolutions of the
    discriminator. *)
Definition halved4 (n : Z) : Z :=
  conv_extent Same (conv_extent Same (conv_extent Same
    (conv_extent Same n 3 2) 3 2) 3 2) 3 2.

(** ** Batches the plotting code accepts *)

(** At least two high-resolution images and no fewer low-resolution
    ones: [plt.subplots(r, c)] then yields the two-dimensional array of
    axes that [axs[row, col]] indexes, and [image[row]] is defined for
    every row. *)
Definition plottable (batch : ndarray * ndarray) : Prop :=
  (2 <= len (fst batch))%nat /\ (len (fst batch) <= len (snd batch))%nat.

(** The arguments of the loader call of [sample_images_new]. *)
Definition sample_args : load_args := mkLoad 1 (Some true) (Some true).

Definition is_imsave (e : event) : bool :=
  match e with Imsave _ _ => true | _ => false end.

(** Two results of an epoch, or of the loop, that agree up to the sign
    of the interval they hand on. *)
Definition same_up_to_sign {A} (interval : A -> Z) (r1 r2 : exn + A) : Prop :=
  match r1, r2 with
  | inl x, inl y => x = y
  | inr a1, inr a2 => interval a1 = interval a2 \/ interval a1 = - interval a2
  | _, _ => False
  end.

(** ** The script *)

(** [gan = SRGAN(); gan.test_images()]: the call of [train] is
    commented out. *)
Definition main : Run test_locals := test_images srgan 1.

Definition is_imshow (e : event) : bool :=
  match e with Imshow _ _ _ _ => true | _ => false end.

(** Neither a training step nor a write of the generator's weights. *)
Definition only_evaluates (e : event) : Prop :=
  match e with
  | TrainOnBatch _ _ _ | SaveWeights _ => False
  | _ => True
  end.

(* ================================================================== *)
(** * Properties *)
(* ================================================================== *)

(** ** Graphs: shapes and values are computed node by node *)

Section GraphFacts.

Variable trained : tensor_id -> layer -> list tensor -> tensor.
Variable feed : tensor.

Lemma fold_step_length (g : graph) (acc : list tensor) :
  List.length (fold_left (eval_step trained feed) g acc)
  = (List.length acc + List.length g)%nat.
Proof.
  revert acc; induction g as [|n g IH]; intros acc; simpl.
  - lia.
  - rewrite IH. unfold eval_step. rewrite length_app. simpl. lia.
Qed.

Lemma fold_step_prefix (g : graph) (acc : list tensor) (j : nat) :
  (j < List.length acc)%nat ->
  nth j (fold_left (eval_step trained feed) g acc) [] = nth j acc [].
Proof.
  revert acc; induction g as [|n g IH]; intros acc Hj; simpl.
  - reflexivity.
  - rewrite IH.
    + unfold eval_step. now rewrite app_nth1.
    + unfold eval_step. rewrite length_app. simpl. lia.
Qed.

Lemma eval_graph_length (g : graph) :
  List.length (eval_graph trained feed g) = List.length g.
Proof. exact (fold_step_length g []). Qed.

Lemma eval_graph_app (g1 g2 : graph) :
  eval_graph trained feed (g1 ++ g2)
  = fold_left (eval_step trained feed) g2 (eval_graph trained feed g1).
Proof. unfold eval_graph. now rewrite fold_left_app. Qed.

(** Values of earlier tensors do not depend on the rest of the graph. *)
Lemma value_at_prefix (g1 g2 : graph) (j : nat) :
  (j < List.length g1)%nat ->
  value_at trained feed (g1 ++ g2) j = value_at trained feed g1 j.
Proof.
  intros Hj. unfold value_at. rewrite eval_graph_app.
  apply fold_step_prefix. now rewrite eval_graph_length.
Qed.

Lemma node_value_ext (vals vals' : list tensor) (i : nat) (n : node) :
  Forall (fun j => nth j vals [] = nth j vals' []) (inbound n) ->
  node_value trained feed vals i n = node_value trained feed vals' i n.
Proof.
  intros H. unfold node_value. f_equal.
  induction H as [|j js Hj _ IH]; simpl; [reflexivity|].
  now rewrite Hj, IH.
Qed.

(** The value of a tensor is its layer applied to the values of the
    tensors it reads. *)
Lemma value_at_node (g : graph) (t : tensor_id) (n : node) :
  nth_error g t = Some n ->
  Forall (fun j => (j < t)%nat) (inbound n) ->
  value_at trained feed g t
  = layer_value trained feed t (layer_of n)
      (map (value_at trained feed g) (inbound n)).
Proof.
  intros Hn Hin.
  destruct (nth_error_split g t Hn) as (g1 & g2 & Hg & Hlen).
  subst g. unfold value_at at 1.
  rewrite eval_graph_app. simpl.
  rewrite fold_step_prefix.
  2:{ unfold eval_step. rewrite length_app, eval_graph_length. simpl. lia. }
  unfold eval_step. rewrite app_nth2; rewrite eval_graph_length; [|lia].
  rewrite Hlen, Nat.sub_diag. simpl.
  unfold node_value. f_equal.
  apply map_ext_in. intros j Hj.
  rewrite Forall_forall in Hin. specialize (Hin j Hj).
  fold (value_at trained feed g1 j).
  symmetry. apply value_at_prefix. lia.
Qed.

End GraphFacts.

Lemma in_enumerated {A} (xs : list A) (s t : nat) (x : A) :
  nth_error xs t = Some x ->
  In ((s + t)%nat, x) (combine (seq s (List.length xs)) xs).
Proof.
  revert s t; induction xs as [|y xs IH]; intros s t Hx.
  - now destruct t.
  - destruct t as [|t]; simpl in *.
    + left. inversion Hx. f_equal. lia.
    + right. replace (s + S t)%nat with (S s + t)%nat by lia. now apply IH.
Qed.

Lemma well_formed_inbound (g : graph) (t : tensor_id) (n : node) :
  well_formed g = true -> nth_error g t = Some n ->
  Forall (fun j => (j < t)%nat) (inbound n).
Proof.
  unfold well_formed. rewrite forallb_forall. intros Hwf Hn.
  specialize (Hwf _ (in_enumerated g 0 t Hn)). simpl in Hwf.
  rewrite forallb_forall in Hwf. apply Forall_forall. intros j Hj.
  apply Nat.ltb_lt. now apply Hwf.
Qed.

(** ** Shapes of a graph under construction *)

Lemma infer_shapes_snoc (g : graph) (n : node) :
  infer_shapes (g ++ [n])
  = infer_shapes g ++ [node_shape (infer_shapes g) n].
Proof. unfold infer_shapes. now rewrite fold_left_app. Qed.

Lemma infer_shapes_length (g : graph) :
  List.length (infer_shapes g) = List.length g.
Proof.
  induction g as [|n g IH] using rev_ind; [reflexivity|].
  rewrite infer_shapes_snoc, !length_app, IH. reflexivity.
Qed.

(** A tensor that has a shape keeps it when layers are added. *)
Lemma shape_at_app (g d : graph) (t : tensor_id) (s : shape) :
  shape_at g t = Some s -> shape_at (g ++ d) t = Some s.
Proof.
  intros Hs. induction d as [|n d IH] using rev_ind.
  - now rewrite app_nil_r.
  - rewrite app_assoc. unfold shape_at in *. rewrite infer_shapes_snoc.
    destruct (Nat.lt_ge_cases t (List.length (infer_shapes (g ++ d))))
      as [Hlt|Hge].
    + now rewrite app_nth1.
    + rewrite nth_overflow in IH by exact Hge. discriminate.
Qed.

Lemma shape_at_new (g : graph) (n : node) :
  shape_at (g ++ [n]) (List.length g) = node_shape (infer_shapes g) n.
Proof.
  unfold shape_at. rewrite infer_shapes_snoc.
  rewrite app_nth2; rewrite infer_shapes_length; [|lia].
  now rewrite Nat.sub_diag.
Qed.

Lemma shape_eqb_refl (s : shape) : shape_eqb s s = true.
Proof. destruct s as [[h w] c]. unfold shape_eqb. now rewrite !Z.eqb_refl. Qed.

Lemma builds_ret {A} (a : A) (g : graph) (Q : A -> graph -> Prop) :
  Q a g -> builds (ret a) g Q.
Proof. intros H. split; [exists []; simpl; now rewrite app_nil_r|exact H]. Qed.

Lemma builds_bind {A B} (m : Build A) (k : A -> Build B) (g : graph)
  (P : A -> graph -> Prop) (Q : B -> graph -> Prop) :
  builds m g P ->
  (forall a d, P a (g ++ d) -> builds (k a) (g ++ d) Q) ->
  builds (bind m k) g Q.
Proof.
  intros [[d Hd] HP] Hk. unfold builds, bind in *.
  destruct (m g) as [a g1]. simpl in *. subst g1.
  destruct (Hk a d HP) as [[d' Hd'] HQ].
  split; [|exact HQ]. exists (d ++ d'). now rewrite Hd', app_assoc.
Qed.

(** A layer with one input. *)
Lemma builds_call1 (l : layer) (x : tensor_id) (g : graph) (s s' : shape) :
  shape_at g x = Some s -> layer_shape l [s] = Some s' ->
  builds (call l [x]) g (fun t g' => shape_at g' t = Some s').
Proof.
  intros Hx Hl. split; [now exists [mkNode l [x]]|].
  unfold call. cbn [fst snd]. rewrite shape_at_new.
  unfold node_shape. cbn [inbound layer_of gather].
  unfold shape_at in Hx. now rewrite Hx.
Qed.

(** [Add] of two tensors of one shape. *)
Lemma builds_add (x y : tensor_id) (g : graph) (s : shape) :
  shape_at g x = Some s -> shape_at g y = Some s ->
  builds (call Add [x; y]) g (fun t g' => shape_at g' t = Some s).
Proof.
  intros Hx Hy. split; [now exists [mkNode Add [x; y]]|].
  unfold call. cbn [fst snd]. rewrite shape_at_new.
  unfold node_shape. cbn [inbound layer_of gather].
  unfold shape_at in Hx, Hy. rewrite Hx, Hy. cbn [layer_shape].
  now rewrite shape_eqb_refl.
Qed.

Lemma builds_for_range {A} (n : nat) (body : A -> Build A) (a : A)
  (g : graph) (I : A -> graph -> Prop) :
  I a g ->
  (forall a' g', I a' g' -> builds (body a') g' I) ->
  builds (for_range n body a) g I.
Proof.
  intros Ha Hbody. revert a g Ha.
  induction n as [|n IH]; intros a g Ha; cbn [for_range].
  - now apply builds_ret.
  - apply builds_bind with (P := I).
    + now apply Hbody.
    + intros a' d Ha'. now apply IH.
Qed.

Lemma conv_extent_same_1 (n k : Z) : conv_extent Same n k 1 = n.
Proof. unfold conv_extent. rewrite Z.div_1_r. lia. Qed.

(** A residual block keeps the shape of its input, when it has as many
    filters as its input has channels. *)
Lemma residual_block_shape (x other : tensor_id) (g : graph) (h w c : Z) :
  shape_at g x = Some (h, w, c) ->
  shape_at g other = Some (h, w, c) ->
  builds (residual_block x c) g
    (fun t g' => shape_at g' t = Some (h, w, c)
                 /\ shape_at g' other = Some (h, w, c)).
Proof.
  intros Hx Ho. unfold residual_block.
  assert (Hconv : forall k, layer_shape (Conv2D c k 1 Same None) [(h, w, c)]
                            = Some (h, w, c))
    by (intros k; cbn [layer_shape]; now rewrite !conv_extent_same_1).
  eapply builds_bind; [eapply builds_call1; [exact Hx|apply Hconv]|].
  cbv beta. intros d1 e1 H1.
  eapply builds_bind; [eapply builds_call1; [exact H1|reflexivity]|].
  cbv beta. intros d2 e2 H2.
  eapply builds_bind; [eapply builds_call1; [exact H2|reflexivity]|].
  cbv beta. intros d3 e3 H3.
  eapply builds_bind; [eapply builds_call1; [exact H3|apply Hconv]|].
  cbv beta. intros d4 e4 H4.
  eapply builds_bind; [eapply builds_call1; [exact H4|reflexivity]|].
  cbv beta. intros d5 e5 H5.
  eapply builds_bind.
  { eapply builds_add; [exact H5|].
    rewrite <- !app_assoc. now apply shape_at_app. }
  cbv beta. intros d6 e6 H6. apply builds_ret. split; [exact H6|].
  rewrite <- !app_assoc. now apply shape_at_app.
Qed.

(** [deconv2d] doubles height and width and yields 256 channels. *)
Lemma deconv2d_shape (x : tensor_id) (g : graph) (h w c : Z) :
  shape_at g x = Some (h, w, c) ->
  builds (deconv2d x) g (fun t g' => shape_at g' t = Some (2 * h, 2 * w, 256)).
Proof.
  intros Hx. unfold deconv2d.
  eapply builds_bind; [eapply builds_call1; [exact Hx|reflexivity]|].
  cbv beta. intros u1 e1 H1.
  eapply builds_bind.
  { eapply builds_call1; [exact H1|]. cbn [layer_shape].
    now rewrite !conv_extent_same_1. }
  cbv beta. intros u2 e2 H2.
  eapply builds_bind; [eapply builds_call1; [exact H2|reflexivity]|].
  cbv beta. intros u3 e3 H3. now apply builds_ret.
Qed.

(** For any low-resolution size, any number of channels and any number
    of residual blocks, the generator takes the low-resolution shape to
    the high-resolution shape, provided the residual blocks have the 64
    filters of the convolutions around them. *)
Lemma generator_shape (self : SRGAN) :
  gf self = 64 ->
  input_shape (build_generator self) = [Some (lr_shape self)] /\
  output_shape (build_generator self) = [Some (hr_shape self)].
Proof.
  intros Hgf.
  assert (H : builds (generator_body self) []
                (fun t g => shape_at g (g_img_lr t) = Some (lr_shape self)
                            /\ shape_at g (g_gen_hr t) = Some (hr_shape self))).
  { unfold generator_body. rewrite Hgf.
    eapply builds_bind.
    { split; [now exists [mkNode (Input (lr_shape self)) []]|].
      unfold call. cbn [fst snd List.length app].
      instantiate
        (1 := fun t g => t = O /\ shape_at g t = Some (lr_shape self)).
      split; reflexivity. }
    cbv beta. intros img_lr e0 [-> H0].
    eapply builds_bind.
    { eapply builds_call1; [exact H0|]. unfold lr_shape.
      cbn [layer_shape]. now rewrite !conv_extent_same_1. }
    cbv beta. intros c1' e1 H1.
    eapply builds_bind; [eapply builds_call1; [exact H1|reflexivity]|].
    cbv beta. intros c1 e2 H2.
    eapply builds_bind; [eapply residual_block_shape; [exact H2|exact H2]|].
    cbv beta. intros r0 e3 [H3 H3'].
    eapply builds_bind.
    { eapply builds_for_range
        with (I := fun r g =>
                     shape_at g r = Some (lr_height self, lr_width self, 64)
                     /\ shape_at g c1
                        = Some (lr_height self, lr_width self, 64)).
      - split; assumption.
      - intros r g [Hr Hc]. now apply residual_block_shape. }
    cbv beta. intros r e4 [H4 H4'].
    eapply builds_bind.
    { eapply builds_call1; [exact H4|]. cbn [layer_shape].
      now rewrite !conv_extent_same_1. }
    cbv beta. intros c2' e5 H5.
    eapply builds_bind; [eapply builds_call1; [exact H5|reflexivity]|].
    cbv beta. intros c2_bn e6 H6.
    eapply builds_bind.
    { eapply builds_add; [exact H6|].
      do 2 apply shape_at_app. exact H4'. }
    cbv beta. intros c2 e7 H7.
    eapply builds_bind; [eapply deconv2d_shape; exact H7|].
    cbv beta. intros u1 e8 H8.
    eapply builds_bind; [eapply deconv2d_shape; exact H8|].
    cbv beta. intros u2 e9 H9.
    eapply builds_bind.
    { eapply builds_call1; [exact H9|]. cbn [layer_shape].
      now rewrite !conv_extent_same_1. }
    cbv beta. intros gen_hr e10 H10.
    apply builds_ret. cbn [g_img_lr g_gen_hr]. split.
    - do 10 apply shape_at_app. exact H0.
    - rewrite H10. unfold hr_shape, hr_height, hr_width.
      replace (lr_height self * 4) with (2 * (2 * lr_height self)) by lia.
      replace (lr_width self * 4) with (2 * (2 * lr_width self)) by lia.
      reflexivity. }
  destruct H as [_ [Hin Hout]].
  unfold build_generator, input_shape, output_shape.
  destruct (generator_body self []) as [t g]. cbn [fst snd] in *.
  cbn [inputs outputs layers map]. now rewrite Hin, Hout.
Qed.

(** ** The activations are bounded *)

Lemma tanh_bounds (x : R) : (-1 <= tanh x <= 1)%R.
Proof.
  unfold tanh, sinh, cosh.
  pose proof (exp_pos x) as Hp. pose proof (exp_pos (- x)) as Hn.
  set (a := exp x) in *. set (b := exp (- x)) in *.
  replace ((a - b) / 2 / ((a + b) / 2))%R with ((a - b) / (a + b))%R
    by (field; lra).
  split.
  - apply Rmult_le_reg_r with (a + b)%R; [lra|].
    unfold Rdiv. rewrite Rmult_assoc, Rinv_l by lra. lra.
  - apply Rmult_le_reg_r with (a + b)%R; [lra|].
    unfold Rdiv. rewrite Rmult_assoc, Rinv_l by lra. lra.
Qed.

Lemma sigmoid_bounds (x : R) : (0 <= sigmoid x <= 1)%R.
Proof.
  unfold sigmoid. pose proof (exp_pos (- x)) as Hn.
  set (b := exp (- x)) in *.
  assert (Hinv : (0 < / (1 + b))%R) by (apply Rinv_0_lt_compat; lra).
  split.
  - unfold Rdiv. lra.
  - apply Rmult_le_reg_r with (1 + b)%R; [lra|].
    unfold Rdiv. rewrite Rmult_assoc, Rinv_l by lra. lra.
Qed.

Lemma Forall_map_bounds (f : R -> R) (lo hi : R) (xs : list R) :
  (forall x, lo <= f x <= hi)%R ->
  Forall (fun v => lo <= v <= hi)%R (map f xs).
Proof.
  intros Hf. apply Forall_forall. intros v Hv.
  apply in_map_iff in Hv. destruct Hv as (x & <- & _). apply Hf.
Qed.

(** ** The generator *)

Lemma generator_well_formed :
  well_formed (layers (build_generator srgan)) = true.
Proof. vm_compute. reflexivity. Qed.

Lemma discriminator_well_formed :
  well_formed (layers (build_discriminator srgan)) = true.
Proof. vm_compute. reflexivity. Qed.

(** The last layer of the generator is a convolution with [tanh]
    activation, so every value it yields is between -1 and 1. *)
Lemma generator_output_bounds
  (trained : tensor_id -> layer -> list tensor -> tensor) (feed : tensor) :
  Forall (fun v => -1 <= v <= 1)%R
         (run_model trained feed (build_generator srgan)).
Proof.
  unfold run_model.
  assert (Hn : nth_error (layers (build_generator srgan))
                 (hd O (outputs (build_generator srgan)))
               = Some (mkNode (Conv2D 3 9 1 Same (Some Tanh)) [107%nat]))
    by (vm_compute; reflexivity).
  rewrite (@value_at_node trained feed _ _ _ Hn
             (@well_formed_inbound _ _ _ generator_well_formed Hn)).
  simpl layer_of. unfold layer_value.
  apply Forall_map_bounds. intros x. simpl. apply tanh_bounds.
Qed.

(** The last layer of the discriminator is a [Dense] layer with
    [sigmoid] activation. *)
Lemma discriminator_output_bounds
  (trained : tensor_id -> layer -> list tensor -> tensor) (feed : tensor) :
  Forall (fun v => 0 <= v <= 1)%R
         (run_model trained feed (build_discriminator srgan)).
Proof.
  unfold run_model.
  assert (Hn : nth_error (layers (build_discriminator srgan))
                 (hd O (outputs (build_discriminator srgan)))
               = Some (mkNode (Dense 1 (Some Sigmoid)) [25%nat]))
    by (vm_compute; reflexivity).
  rewrite (@value_at_node trained feed _ _ _ Hn
             (@well_formed_inbound _ _ _ discriminator_well_formed Hn)).
  simpl layer_of. unfold layer_value.
  apply Forall_map_bounds. intros x. simpl. apply sigmoid_bounds.
Qed.

Lemma generator_layer_ok_reflect (g : graph) (i : tensor_id) :
  generator_layer_okb g i = true -> generator_layer_ok g i.
Proof.
  unfold generator_layer_okb, generator_layer_ok.
  destruct (nth_error g i) as [[l ins]|]; [|discriminate].
  destruct l; try tauto.
  - intros H. apply andb_prop in H. destruct H as [H Hk].
    apply andb_prop in H. destruct H as [Hs Hp].
    apply Z.eqb_eq in Hs. destruct pad; [|discriminate]. auto.
  - intros H. apply andb_prop in H. destruct H as [Hs Hk].
    apply Z.eqb_eq in Hs. auto.
Qed.

(** C1: the high-resolution shape is 4 times the low-resolution shape in
    height and width ((256, 256, 3) for (64, 64, 3)); the generator takes
    the low-resolution shape to the high-resolution shape through exactly
    two upsampling layers, each doubling height and width, all other layers
    keeping height and width and all convolutions having stride 1 and
    'same' padding. The two shapes are related in this way for every
    low-resolution size and every number of residual blocks, as long as
    the residual blocks keep 64 filters. *)
Theorem generator_upscales_4x :
  lr_shape srgan = (64, 64, 3) /\
  hr_shape srgan = (256, 256, 3) /\
  hr_height srgan = 4 * lr_height srgan /\
  hr_width srgan = 4 * lr_width srgan /\
  input_shape (build_generator srgan) = [Some (lr_shape srgan)] /\
  output_shape (build_generator srgan) = [Some (hr_shape srgan)] /\
  count_layers is_upsampling (layers (build_generator srgan)) = 2%nat /\
  Forall (generator_layer_ok (layers (build_generator srgan)))
         (seq 0 (List.length (layers (build_generator srgan)))) /\
  (forall self : SRGAN,
     gf self = 64 ->
     input_shape (build_generator self) = [Some (lr_shape self)] /\
     output_shape (build_generator self) = [Some (hr_shape self)]).
Proof.
  split; [reflexivity|]. split; [reflexivity|].
  split; [reflexivity|]. split; [reflexivity|].
  split; [exact (proj1 (generator_shape srgan eq_refl))|].
  split; [exact (proj2 (generator_shape srgan eq_refl))|].
  split; [vm_compute; reflexivity|].
  split; [|exact generator_shape].
  apply Forall_forall. intros i Hi.
  apply generator_layer_ok_reflect.
  revert i Hi. apply forallb_forall. vm_compute. reflexivity.
Qed.

Lemma residual_at_spec (g : graph) (out d x : tensor_id) :
  residual_at g out = Some (d, x) ->
  nth_error g out = Some (mkNode Add [d; x]) /\
  trace_back g residual_layers d = Some x.
Proof.
  unfold residual_at.
  destruct (nth_error g out) as [[l ins]|]; [|discriminate].
  destruct l; try discriminate.
  destruct ins as [|a [|b [|c ins]]]; try discriminate.
  destruct (trace_back g residual_layers a) as [x'|] eqn:Hback;
    [|discriminate].
  destruct (x' =? b)%nat eqn:Hx; [|discriminate].
  apply Nat.eqb_eq in Hx. subst x'.
  intros H. inversion H. subst. auto.
Qed.

Lemma in_residual_blocks (g : graph) (x out : tensor_id) :
  In (x, out) (residual_blocks g) ->
  exists d, residual_at g out = Some (d, x).
Proof.
  unfold residual_blocks. rewrite in_flat_map.
  intros (o & _ & Hin).
  destruct (residual_at g o) as [[d x']|] eqn:Hres; simpl in Hin;
    [|contradiction].
  destruct Hin as [Heq|[]]. inversion Heq. subst. now exists d.
Qed.

(** An [Add] node yields the elementwise sum of the two tensors it
    reads. *)
Lemma add_node_value
  (trained : tensor_id -> layer -> list tensor -> tensor) (feed : tensor)
  (g : graph) (out a b : tensor_id) :
  well_formed g = true ->
  nth_error g out = Some (mkNode Add [a; b]) ->
  value_at trained feed g out
  = tensor_add (value_at trained feed g a) (value_at trained feed g b).
Proof.
  intros Hwf Hn.
  now rewrite (@value_at_node trained feed _ _ _ Hn
                 (@well_formed_inbound _ _ _ Hwf Hn)).
Qed.

(** C6: the generator has 16 residual blocks, chained from [c1] to [r];
    each of them ends in an [Add] of the result of its
    convolution/normalisation layers and its own input; [c2] is the [Add]
    of the normalised post-residual convolution and [c1], and it is what
    the first upsampling stage reads. *)
Theorem generator_residual_structure
  (trained : tensor_id -> layer -> list tensor -> tensor) (feed : tensor) :
  let g := layers (build_generator srgan) in
  let t := fst (generator_body srgan []) in
  n_residual_blocks srgan = 16 /\
  List.length (residual_blocks g) = 16%nat /\
  map fst (residual_blocks g)
    = g_c1 t :: removelast (map snd (residual_blocks g)) /\
  last (map snd (residual_blocks g)) O = g_r t /\
  (forall x out, In (x, out) (residual_blocks g) ->
     exists d,
       nth_error g out = Some (mkNode Add [d; x]) /\
       trace_back g residual_layers d = Some x /\
       value_at trained feed g out
       = tensor_add (value_at trained feed g d) (value_at trained feed g x)) /\
  trace_back g [is_relu; is_conv 9] (g_c1 t) = Some (g_img_lr t) /\
  trace_back g [is_batchnorm; is_conv 3] (g_c2_bn t) = Some (g_r t) /\
  nth_error g (g_c2 t) = Some (mkNode Add [g_c2_bn t; g_c1 t]) /\
  value_at trained feed g (g_c2 t)
  = tensor_add (value_at trained feed g (g_c2_bn t))
               (value_at trained feed g (g_c1 t)) /\
  trace_back g [is_relu; is_conv 3; is_upsampling] (g_u1 t) = Some (g_c2 t).
Proof.
  intros g t.
  assert (Hc2 : nth_error g (g_c2 t) = Some (mkNode Add [g_c2_bn t; g_c1 t]))
    by (vm_compute; reflexivity).
  split; [reflexivity|].
  split; [vm_compute; reflexivity|].
  split; [vm_compute; reflexivity|].
  split; [vm_compute; reflexivity|].
  split.
  { intros x out Hin.
    destruct (in_residual_blocks _ _ _ Hin) as (d & Hres).
    destruct (residual_at_spec _ _ Hres) as (Hn & Hback).
    exists d. split; [exact Hn|]. split; [exact Hback|].
    apply add_node_value; [apply generator_well_formed|exact Hn]. }
  split; [vm_compute; reflexivity|].
  split; [vm_compute; reflexivity|].
  split; [exact Hc2|].
  split; [apply add_node_value; [apply generator_well_formed|exact Hc2]|].
  vm_compute; reflexivity.
Qed.

(** ** Runs of the library calls *)

Lemma log_nil (w : world) : log [] w = w.
Proof. destruct w. unfold log. simpl. now rewrite app_nil_r. Qed.

Lemma log_log (a b : list event) (w : world) :
  log b (log a w) = log (a ++ b) w.
Proof. unfold log. simpl. now rewrite app_assoc. Qed.

Lemma for_each_log {A} (xs : list A) (body : A -> Run unit)
  (f : A -> list event) :
  (forall x w, body x w = (inr tt, log (f x) w)) ->
  forall w, for_each xs body w = (inr tt, log (flat_map f xs) w).
Proof.
  intros Hbody. induction xs as [|x xs IH]; intros w; simpl.
  - unfold pure. now rewrite log_nil.
  - unfold seq_run. now rewrite Hbody, IH, log_log.
Qed.

Lemma logs_pure {A} (a : A) : logs (pure a) (inr a) [].
Proof. intros w. unfold pure. now rewrite log_nil. Qed.

Lemma logs_raise {A} (ex : exn) : logs (@raise A ex) (inl ex) [].
Proof. intros w. unfold raise. now rewrite log_nil. Qed.

Lemma logs_emit (e : event) : logs (emit e) (inr tt) [e].
Proof. intros w. reflexivity. Qed.

Lemma logs_bind {A B} (m : Run A) (k : A -> Run B) (a : A)
  (res : exn + B) (e1 e2 : list event) :
  logs m (inr a) e1 -> logs (k a) res e2 -> logs (seq_run m k) res (e1 ++ e2).
Proof. intros Hm Hk w. unfold seq_run. now rewrite Hm, Hk, log_log. Qed.

Lemma logs_then {A B} (m : Run A) (k : A -> Run B) (a : A)
  (res : exn + B) (evs : list event) :
  logs m (inr a) [] -> logs (k a) res evs -> logs (seq_run m k) res evs.
Proof. intros Hm Hk w. unfold seq_run. now rewrite Hm, Hk, log_log. Qed.

Lemma logs_bind_raise {A B} (m : Run A) (k : A -> Run B) (ex : exn)
  (e1 : list event) :
  logs m (inl ex) e1 -> logs (seq_run m k) (inl ex) e1.
Proof. intros Hm w. unfold seq_run. now rewrite Hm. Qed.

(** Two descriptions of one computation agree. *)
Lemma logs_unique {A} (w : world) (m : Run A) (r1 r2 : exn + A)
  (e1 e2 : list event) :
  logs m r1 e1 -> logs m r2 e2 -> r1 = r2 /\ e1 = e2.
Proof.
  intros H1 H2. pose proof (H1 w) as Ha. rewrite H2 in Ha.
  inversion Ha as [[Hr He]]. split; [reflexivity|].
  now apply app_inv_head in He.
Qed.

(** A loop over computations that only record events is one of them,
    whether it runs to its end or stops at an exception. *)
Lemma logs_for_each {A} (P : event -> Prop) (xs : list A)
  (body : A -> Run unit) :
  (forall x, In x xs ->
     exists res evs, logs (body x) res evs /\ Forall P evs) ->
  exists res evs, logs (for_each xs body) res evs /\ Forall P evs.
Proof.
  induction xs as [|x xs IH]; intros Hbody; cbn [for_each].
  - exists (inr tt), []. split; [apply logs_pure|constructor].
  - destruct (Hbody x (or_introl eq_refl)) as ([ex|[]] & e1 & Hx & HP1).
    + exists (inl ex), e1. split; [now apply logs_bind_raise|exact HP1].
    + destruct IH as (res & e2 & Hxs & HP2).
      { intros y Hy. apply Hbody. now right. }
      exists res, (e1 ++ e2). split.
      * eapply logs_bind; eassumption.
      * apply Forall_app. auto.
Qed.

Lemma logs_for_each_ok {A} (xs : list A) (body : A -> Run unit)
  (f : A -> list event) :
  (forall x, In x xs -> logs (body x) (inr tt) (f x)) ->
  logs (for_each xs body) (inr tt) (flat_map f xs).
Proof.
  induction xs as [|x xs IH]; intros Hbody; cbn [for_each flat_map].
  - apply logs_pure.
  - eapply logs_bind; [apply Hbody; now left|].
    apply IH. intros y Hy. apply Hbody. now right.
Qed.

Lemma enumerate_in {A} (xs : list A) (col : nat) (x : A) :
  In (col, x) (enumerate xs) -> nth_error xs col = Some x.
Proof.
  unfold enumerate.
  assert (H : forall s, In (col, x) (combine (seq s (List.length xs)) xs) ->
                        (s <= col)%nat /\ nth_error xs (col - s) = Some x).
  { induction xs as [|y xs IH]; intros s Hin; [contradiction|].
    cbn [List.length seq combine In] in Hin. destruct Hin as [Hin|Hin].
    - inversion Hin. subst. rewrite Nat.sub_diag. auto.
    - apply IH in Hin. destruct Hin as [Hle Hn]. split; [lia|].
      replace (col - s)%nat with (S (col - S s)) by lia. exact Hn. }
  intros Hin. apply H in Hin. now rewrite Nat.sub_0_r in Hin.
Qed.

(** ** The grid of subplots *)

(** Whatever the batch, [show_grid] only shows images, each an item of
    the array of its column. *)
Lemma show_grid_logs (r : nat) (titles : list string)
  (images : list ndarray) :
  exists res evs,
    logs (show_grid r titles images) res evs /\
    Forall (shows titles images) evs.
Proof.
  unfold show_grid, subplots.
  destruct (r =? 0)%nat.
  { exists (inl ValueError), []. split; [|constructor].
    apply logs_bind_raise, logs_raise. }
  destruct (@logs_for_each nat (shows titles images) (seq 0 r)
              (fun row =>
                 for_each (enumerate images) (fun ci =>
                   let '(col, image) := ci in
                   axs_at r row col ;;;
                   img <- item_at image row ;;
                   emit (Imshow row col (nth col titles EmptyString) img))))
    as (res & evs & Hlogs & Hevs).
  { intros row _. apply logs_for_each. intros [col image] Hin.
    apply enumerate_in in Hin.
    unfold axs_at, item_at.
    destruct (r =? 1)%nat.
    { exists (inl IndexError), []. split; [|constructor].
      apply logs_bind_raise, logs_raise. }
    destruct (nth_error (items image) row) as [img|] eqn:Himg.
    - exists (inr tt), [Imshow row col (nth col titles EmptyString) img].
      split.
      + eapply logs_then; [apply logs_pure|].
        eapply logs_then; [apply logs_pure|].
        apply logs_emit.
      + constructor; [|constructor]. cbn. split; [reflexivity|].
        exists image. auto.
    - exists (inl IndexError), []. split; [|constructor].
      eapply logs_then; [apply logs_pure|].
      apply logs_bind_raise, logs_raise. }
  exists res, evs. split; [|exact Hevs].
  eapply logs_then; [apply logs_pure|]. exact Hlogs.
Qed.

(** With at least two rows, and no array shorter than the number of
    rows, every cell of the grid is shown. *)
Lemma show_grid_ok (r : nat) (titles : list string) (images : list ndarray) :
  (2 <= r)%nat -> Forall (fun image => (r <= len image)%nat) images ->
  logs (show_grid r titles images) (inr tt) (grid_events r titles images).
Proof.
  intros Hr Himages. unfold show_grid, subplots, grid_events.
  destruct (Nat.eqb_spec r 0) as [H0|_]; [lia|].
  eapply logs_then; [apply logs_pure|].
  apply logs_for_each_ok. intros row Hrow. apply in_seq in Hrow.
  apply logs_for_each_ok. intros [col image] Hin.
  apply enumerate_in, nth_error_In in Hin.
  assert (Hlen : (row < List.length (items image))%nat).
  { rewrite Forall_forall in Himages. specialize (Himages _ Hin).
    unfold len in Himages. lia. }
  cbv beta iota. unfold axs_at, item_at.
  destruct (Nat.eqb_spec r 1) as [H1|_]; [lia|].
  rewrite (@nth_error_nth' _ (items image) row [] Hlen). cbn [fst snd].
  eapply logs_then; [apply logs_pure|].
  eapply logs_then; [apply logs_pure|].
  apply logs_emit.
Qed.

(** A single row cannot be plotted: the first [axs[row, col]] raises. *)
Lemma show_grid_single (titles : list string) (image : ndarray)
  (images : list ndarray) :
  logs (show_grid 1 titles (image :: images)) (inl IndexError) [].
Proof.
  unfold show_grid, subplots. cbn [Nat.eqb seq for_each enumerate].
  eapply logs_then; [apply logs_pure|].
  apply logs_bind_raise.
  cbn [List.length seq combine for_each].
  apply logs_bind_raise. unfold axs_at. cbn [Nat.eqb].
  apply logs_bind_raise, logs_raise.
Qed.

Lemma shows_imshow (titles : list string) (images : list ndarray)
  (evs : list event) :
  Forall (shows titles images) evs ->
  Forall (fun ev => is_imshow ev = true) evs.
Proof.
  apply Forall_impl. intros [] H; try contradiction. reflexivity.
Qed.

Lemma imshow_not_training (evs : list event) :
  Forall (fun ev => is_imshow ev = true) evs ->
  Forall (fun ev => is_training ev = false) evs.
Proof. apply Forall_impl. intros [] H; try discriminate; reflexivity. Qed.

Lemma imshow_only_evaluates (evs : list event) :
  Forall (fun ev => is_imshow ev = true) evs -> Forall only_evaluates evs.
Proof. apply Forall_impl. intros [] H; try discriminate; exact I. Qed.

Lemma filter_imshow_nil (p : event -> bool) (evs : list event) :
  (forall ev, is_imshow ev = true -> p ev = false) ->
  Forall (fun ev => is_imshow ev = true) evs -> filter p evs = [].
Proof.
  intros Hp Hevs. induction Hevs as [|ev evs Hev _ IH]; [reflexivity|].
  cbn [filter]. now rewrite (Hp ev Hev).
Qed.

Lemma saved_app (a b : list event) : saved (a ++ b) = saved a ++ saved b.
Proof. apply filter_app. Qed.

Lemma saved_flat_map_nil {A} (f : A -> list event) (xs : list A) :
  (forall x, saved (f x) = []) -> saved (flat_map f xs) = [].
Proof.
  intros Hf. induction xs as [|x xs IH]; simpl; [reflexivity|].
  now rewrite saved_app, Hf, IH.
Qed.

Lemma saved_grid_events (r : nat) (titles : list string)
  (images : list ndarray) :
  saved (grid_events r titles images) = [].
Proof.
  unfold grid_events.
  apply saved_flat_map_nil. intros row.
  apply saved_flat_map_nil. intros ci. reflexivity.
Qed.

Lemma Forall_flat_map {A B} (P : B -> Prop) (f : A -> list B) (xs : list A) :
  (forall x, Forall P (f x)) -> Forall P (flat_map f xs).
Proof.
  intros Hf. induction xs as [|x xs IH]; simpl; [constructor|].
  apply Forall_app. auto.
Qed.

Lemma grid_events_not_training (r : nat) (titles : list string)
  (images : list ndarray) :
  Forall (fun ev => is_training ev = false) (grid_events r titles images).
Proof.
  unfold grid_events.
  apply Forall_flat_map. intros row.
  apply Forall_flat_map. intros ci. repeat constructor.
Qed.

Lemma len_rescale (a : ndarray) : len (rescale a) = len a.
Proof. unfold len, rescale, nd_map. cbn [items]. apply length_map. Qed.

Lemma len_forward (self : SRGAN) (ws : model_name -> W) (m : model_name)
  (x : ndarray) :
  len (forward self ws m x) = len x.
Proof. unfold len, forward. cbn [items]. apply length_map. Qed.

(** ** sample_images_new *)

(** [sample_images_new] on any batch: it draws the batch, predicts and
    shows what the grid can show; it writes the figure when the whole grid
    was shown, and stops at the exception of the grid otherwise. *)
Lemma sample_images_new_cases (self : SRGAN) (epoch : Z) (w : world) :
  let batch := load_data (loader_calls w) sample_args in
  let imgs_lr := rescale (snd batch) in
  let fake_hr := rescale (forward self (weights w) generator (snd batch)) in
  let imgs_hr := rescale (fst batch) in
  let titles :=
    [("Generated  epoch: " ++ str epoch)%string; "Original"; "Low"]%string in
  let pre :=
    [Makedirs "images/"; LoadData sample_args;
     Predict generator (snd batch)] in
  exists res grid,
    logs (show_grid (len imgs_hr) titles [fake_hr; imgs_hr; imgs_lr])
         res grid /\
    Forall (shows titles [fake_hr; imgs_hr; imgs_lr]) grid /\
    sample_images_new self epoch w
    = match res with
      | inl ex =>
          (inl ex,
           mkWorld (weights w) (S (loader_calls w))
                   (trace w ++ pre ++ grid))
      | inr _ =>
          (inr (mkSample imgs_lr fake_hr imgs_hr),
           mkWorld (weights w) (S (loader_calls w))
                   (trace w ++ pre ++ grid
                    ++ [Savefig ("images/" ++ str epoch ++ ".png")]))
      end.
Proof.
  intros.
  destruct (show_grid_logs (len imgs_hr) titles [fake_hr; imgs_hr; imgs_lr])
    as (res & grid & Hlogs & Hgrid).
  exists res, grid. split; [exact Hlogs|]. split; [exact Hgrid|].
  unfold sample_images_new, seq_run, emit, data_loader_load_data, predict,
    pure, log.
  cbn [weights loader_calls trace].
  change (mkLoad 1 (Some true) (Some true)) with sample_args. fold batch.
  destruct batch as [hr lr] eqn:Hbatch. cbn [fst snd] in *.
  fold imgs_lr fake_hr imgs_hr titles.
  rewrite Hlogs. unfold log. cbn [weights loader_calls trace].
  destruct res as [ex|[]]; rewrite <- ?app_assoc; reflexivity.
Qed.

Lemma plottable_sample_grid (self : SRGAN) (ws : model_name -> W)
  (batch : ndarray * ndarray) :
  plottable batch ->
  (2 <= len (rescale (fst batch)))%nat /\
  Forall (fun image => (len (rescale (fst batch)) <= len image)%nat)
    [rescale (forward self ws generator (snd batch));
     rescale (fst batch); rescale (snd batch)].
Proof.
  intros [H2 Hle]. rewrite !len_rescale. split; [exact H2|].
  repeat constructor; rewrite !len_rescale, ?len_forward; auto.
Qed.

(** On a batch the plotting code accepts [sample_images_new] returns;
    it leaves the weights alone, calls the loader once, trains nothing
    and writes one figure. *)
Lemma sample_images_new_run (self : SRGAN) (epoch : Z) (w : world) :
  plottable (load_data (loader_calls w) sample_args) ->
  exists (l : sample_locals) (evs : list event),
    sample_images_new self epoch w
    = (inr l, mkWorld (weights w) (S (loader_calls w)) (trace w ++ evs)) /\
    saved evs = [Savefig ("images/" ++ str epoch ++ ".png")] /\
    Forall (fun ev => is_training ev = false) evs /\
    s_fake_hr l
    = rescale (forward self (weights w) generator
                 (snd (load_data (loader_calls w) sample_args))).
Proof.
  intros Hplot.
  destruct (sample_images_new_cases self epoch w)
    as (res & grid & Hlogs & Hgrid & Hrun).
  cbv zeta in Hlogs, Hgrid, Hrun.
  destruct (plottable_sample_grid self (weights w) Hplot) as [H2 Hall].
  destruct (logs_unique w Hlogs (show_grid_ok _ H2 Hall)) as [-> ->].
  eexists. eexists. split; [exact Hrun|].
  split; [|split; [|reflexivity]].
  - rewrite !saved_app, saved_grid_events. reflexivity.
  - repeat (apply Forall_app; split); try (repeat constructor).
    apply grid_events_not_training.
Qed.

(** On any batch [sample_images_new] leaves the weights alone, calls
    the loader once and trains nothing; when it raises it has written
    nothing. *)
Lemma sample_images_new_frame (self : SRGAN) (epoch : Z) (w : world) :
  exists (res : exn + sample_locals) (evs : list event),
    sample_images_new self epoch w
    = (res, mkWorld (weights w) (S (loader_calls w)) (trace w ++ evs)) /\
    Forall (fun ev => is_training ev = false) evs /\
    (forall ex, res = inl ex -> saved evs = []).
Proof.
  destruct (sample_images_new_cases self epoch w)
    as (res & grid & _ & Hgrid & Hrun).
  cbv zeta in Hgrid, Hrun.
  apply shows_imshow in Hgrid.
  pose proof (imshow_not_training Hgrid) as Hnt.
  assert (Hsv : saved grid = []).
  { apply filter_imshow_nil; [|exact Hgrid]. intros [] H; try discriminate;
      reflexivity. }
  destruct res as [ex|l]; eexists; eexists; (split; [exact Hrun|]); split.
  - repeat (apply Forall_app; split); try (repeat constructor). exact Hnt.
  - intros _ _. rewrite !saved_app, Hsv. reflexivity.
  - repeat (apply Forall_app; split); try (repeat constructor). exact Hnt.
  - intros ex Hex. discriminate.
Qed.

(** A batch of one high-resolution image cannot be plotted:
    [sample_images_new] raises before it writes the figure. *)
Lemma sample_images_new_single (self : SRGAN) (epoch : Z) (w : world) :
  len (fst (load_data (loader_calls w) sample_args)) = 1%nat ->
  sample_images_new self epoch w
  = (inl IndexError,
     mkWorld (weights w) (S (loader_calls w))
       (trace w
        ++ [Makedirs "images/"; LoadData sample_args;
            Predict generator
              (snd (load_data (loader_calls w) sample_args))])).
Proof.
  intros H1.
  destruct (sample_images_new_cases self epoch w)
    as (res & grid & Hlogs & _ & Hrun).
  cbv zeta in Hlogs, Hrun. rewrite len_rescale, H1 in Hlogs.
  destruct (logs_unique w Hlogs (show_grid_single _ _ _)) as [-> ->].
  rewrite Hrun, app_nil_r. reflexivity.
Qed.

(** ** The models as [__init__] leaves them *)

Lemma srgan_vgg_compiled :
  compiled_as (models srgan) vgg
  = Some (mkCompiled
            (mkCompile [mse] [1%Q] (0.0002, 0.5)%Q ["accuracy"%string]) []).
Proof. reflexivity. Qed.

Lemma srgan_discriminator_compiled :
  compiled_as (models srgan) discriminator
  = Some (mkCompiled
            (mkCompile [mse] [1%Q] (0.0002, 0.5)%Q ["accuracy"%string])
            [discriminator]).
Proof. reflexivity. Qed.

Lemma srgan_combined_compiled :
  compiled_as (models srgan) combined
  = Some (mkCompiled
            (mkCompile [binary_crossentropy; mse] [1e-3; 1]%Q
                       (0.0002, 0.5)%Q [])
            [generator]).
Proof. reflexivity. Qed.

(** ** One epoch of [train] *)

(** The steps of an epoch up to the progress line always return. *)
Lemma train_steps_run (w : world) (b si e : Z) :
  let si' := if e >? 100 then 50 else if e >? 30 then 10 else si in
  let batch1 := load_data (loader_calls w) (mkLoad b None None) in
  let fake_hr := forward srgan (weights w) generator (snd batch1) in
  let valid := np_ones (b :: shape_list (disc_patch srgan)) in
  let fake := np_zeros (b :: shape_list (disc_patch srgan)) in
  let ws1 :=
    updated [discriminator]
      (optimizer_step discriminator (weights w) [fst batch1] [valid])
      (weights w) in
  let ws2 :=
    updated [discriminator]
      (optimizer_step discriminator ws1 [fake_hr] [fake]) ws1 in
  let batch2 := load_data (S (loader_calls w)) (mkLoad b None None) in
  let image_features := forward srgan ws2 vgg (fst batch2) in
  let ws3 :=
    updated [generator]
      (optimizer_step combined ws2 [snd batch2; fst batch2]
         [valid; image_features]) ws2 in
  let d_loss :=
    map (Rmult 0.5)
      (tensor_add
         (batch_losses discriminator (weights w) [fst batch1] [valid])
         (batch_losses discriminator ws1 [fake_hr] [fake])) in
  let g_loss :=
    batch_losses combined ws2 [snd batch2; fst batch2]
      [valid; image_features] in
  let steps :=
    [LoadData (mkLoad b None None);
     Predict generator (snd batch1);
     TrainOnBatch discriminator [fst batch1] [valid];
     TrainOnBatch discriminator [fake_hr] [fake];
     LoadData (mkLoad b None None);
     Predict vgg (fst batch2);
     TrainOnBatch combined [snd batch2; fst batch2] [valid; image_features];
     PrintProgress e] in
  let w1 := mkWorld ws3 (S (S (loader_calls w))) (trace w ++ steps) in
  train_steps srgan b si e w = (inr (mkEpoch si' d_loss g_loss), w1).
Proof.
  intros.
  unfold train_steps, seq_run, data_loader_load_data, predict,
    train_on_batch, emit, pure, log.
  cbn [weights loader_calls trace].
  fold batch1. destruct batch1 as [imgs_hr imgs_lr] eqn:Hb1.
  rewrite srgan_discriminator_compiled.
  cbn [weights loader_calls trace collected_trainable_weights fst snd].
  fold batch2. destruct batch2 as [imgs_hr2 imgs_lr2] eqn:Hb2.
  rewrite srgan_combined_compiled.
  cbn [weights loader_calls trace collected_trainable_weights fst snd].
  rewrite <- !app_assoc. cbn [app].
  cbn [fst snd] in *.
  replace (if e >? 100 then 50 else if e >? 30 then 10 else si)
    with si' by reflexivity.
  reflexivity.
Qed.

(** The whole body of the loop: after the steps the epoch stops at
    [0 % 0], or at the exception of [sample_images_new] when the figure
    is due, or returns. *)
Lemma train_epoch_run (w : world) (b si e : Z) :
  let si' := if e >? 100 then 50 else if e >? 30 then 10 else si in
  let batch1 := load_data (loader_calls w) (mkLoad b None None) in
  let fake_hr := forward srgan (weights w) generator (snd batch1) in
  let valid := np_ones (b :: shape_list (disc_patch srgan)) in
  let fake := np_zeros (b :: shape_list (disc_patch srgan)) in
  let ws1 :=
    updated [discriminator]
      (optimizer_step discriminator (weights w) [fst batch1] [valid])
      (weights w) in
  let ws2 :=
    updated [discriminator]
      (optimizer_step discriminator ws1 [fake_hr] [fake]) ws1 in
  let batch2 := load_data (S (loader_calls w)) (mkLoad b None None) in
  let image_features := forward srgan ws2 vgg (fst batch2) in
  let ws3 :=
    updated [generator]
      (optimizer_step combined ws2 [snd batch2; fst batch2]
         [valid; image_features]) ws2 in
  let d_loss :=
    map (Rmult 0.5)
      (tensor_add
         (batch_losses discriminator (weights w) [fst batch1] [valid])
         (batch_losses discriminator ws1 [fake_hr] [fake])) in
  let g_loss :=
    batch_losses combined ws2 [snd batch2; fst batch2]
      [valid; image_features] in
  let steps :=
    [LoadData (mkLoad b None None);
     Predict generator (snd batch1);
     TrainOnBatch discriminator [fst batch1] [valid];
     TrainOnBatch discriminator [fake_hr] [fake];
     LoadData (mkLoad b None None);
     Predict vgg (fst batch2);
     TrainOnBatch combined [snd batch2; fst batch2] [valid; image_features];
     PrintProgress e] in
  let w1 := mkWorld ws3 (S (S (loader_calls w))) (trace w ++ steps) in
  train_epoch srgan b si e w
  = if si' =? 0 then (inl ZeroDivisionError, w1)
    else
      let l := mkEpoch si' d_loss g_loss in
      let save := (e mod 500 =? 0) && (e >? 1) in
      let weights_saved :=
        log [SaveWeights ("./saved_model/" ++ str e ++ ".h5")] in
      if e mod si' =? 0
      then
        match sample_images_new srgan e w1 with
        | (inl ex, w2) => (inl ex, w2)
        | (inr _, w2) => (inr l, if save then weights_saved w2 else w2)
        end
      else (inr l, if save then weights_saved w1 else w1).
Proof.
  intros.
  unfold train_epoch. unfold seq_run at 1.
  pose proof (train_steps_run w b si e) as Hsteps. cbv zeta in Hsteps.
  fold si' batch1 fake_hr valid fake ws1 ws2 batch2 image_features ws3
    in Hsteps.
  fold d_loss g_loss in Hsteps. fold steps in Hsteps. fold w1 in Hsteps.
  rewrite Hsteps. cbn [e_sample_interval].
  clearbody w1. clearbody d_loss g_loss.
  unfold seq_run, py_mod, raise, pure, when, save_weights, emit.
  destruct (si' =? 0) eqn:Hsi; [reflexivity|].
  change (500 =? 0) with false. cbv iota zeta.
  destruct (e mod si' =? 0) eqn:Hmod.
  - destruct (sample_images_new srgan e w1) as [[ex|l] w2]; [reflexivity|].
    destruct ((e mod 500 =? 0) && (e >? 1)); reflexivity.
  - destruct ((e mod 500 =? 0) && (e >? 1)); reflexivity.
Qed.

(** An epoch changes the weights of the discriminator and of the
    generator only, however it ends. *)
Lemma train_epoch_weights (w : world) (b si e : Z) (m : model_name) :
  m = vgg \/ m = combined ->
  weights (snd (train_epoch srgan b si e w)) m = weights w m.
Proof.
  intros Hm. rewrite train_epoch_run. cbv zeta.
  set (si' := if e >? 100 then 50 else if e >? 30 then 10 else si).
  set (w1 := mkWorld _ _ (trace w ++ _)).
  assert (H1 : weights w1 m = weights w m)
    by (destruct Hm; subst m; reflexivity).
  destruct (sample_images_new_frame srgan e w1) as (res & evs & Hrun & _).
  rewrite Hrun.
  clearbody w1.
  destruct (si' =? 0); [exact H1|].
  destruct (e mod si' =? 0); [destruct res|];
    destruct ((e mod 500 =? 0) && (e >? 1));
    cbn [snd log weights]; assumption.
Qed.

(** A loop keeps what each of its iterations keeps. *)
Lemma for_each_with_preserves {A S} (P : world -> Prop) (xs : list A)
  (body : S -> A -> Run S) :
  (forall s x w, P w -> P (snd (body s x w))) ->
  forall s w, P w -> P (snd (for_each_with xs body s w)).
Proof.
  intros Hbody. induction xs as [|x xs IH]; intros s w Hw; simpl.
  - exact Hw.
  - unfold seq_run. specialize (Hbody s x w Hw).
    destruct (body s x w) as [[ex|s'] w']; simpl in *; auto.
Qed.

Lemma train_weights (w : world) (epochs b si : Z) (m : model_name) :
  m = vgg \/ m = combined ->
  weights (snd (train srgan epochs b si w)) m = weights w m.
Proof.
  intros Hm. unfold train. unfold seq_run at 1.
  pose proof (@for_each_with_preserves Z Z
                (fun w' => weights w' m = weights w m) (range epochs)
                (fun sample_interval epoch =>
                   l <- train_epoch srgan b sample_interval epoch ;;
                   pure (e_sample_interval l))) as Hloop.
  cbv beta in Hloop.
  specialize (fun H => Hloop H si w eq_refl).
  match type of Hloop with ?H -> _ => assert (Hb : H) end.
  { intros s x w0 Hw0. unfold seq_run.
    pose proof (train_epoch_weights w0 b s x Hm) as He.
    destruct (train_epoch srgan b s x w0) as [[ex|l] w']; simpl in *;
      congruence. }
  specialize (Hloop Hb).
  destruct (for_each_with _ _ _ _) as [[ex|s'] w']; simpl in *; assumption.
Qed.

(** The loop of [train], one epoch at a time. *)
Lemma train_loop (epochs b si : Z) (w : world) :
  train srgan epochs b si w
  = match for_each_with (range epochs)
            (fun sample_interval epoch =>
               l <- train_epoch srgan b sample_interval epoch ;;
               pure (e_sample_interval l))
            si w
    with
    | (inl ex, w') => (inl ex, w')
    | (inr _, w') => (inr tt, w')
    end.
Proof. reflexivity. Qed.

Lemma train_loop_step (b e s : Z) (xs : list Z) (w : world) :
  for_each_with (e :: xs)
    (fun sample_interval epoch =>
       l <- train_epoch srgan b sample_interval epoch ;;
       pure (e_sample_interval l))
    s w
  = match train_epoch srgan b s e w with
    | (inl ex, w') => (inl ex, w')
    | (inr l, w') =>
        for_each_with xs
          (fun sample_interval epoch =>
             l <- train_epoch srgan b sample_interval epoch ;;
             pure (e_sample_interval l))
          (e_sample_interval l) w'
    end.
Proof.
  cbn [for_each_with]. unfold seq_run at 1. unfold seq_run at 1.
  destruct (train_epoch srgan b s e w) as [[ex|l] w']; reflexivity.
Qed.

(** ** The intervals of [train] *)

Lemma interval_first (si e : Z) :
  (if e >? 100 then 50 else if e >? 30 then 10 else si) = interval_at si e.
Proof.
  unfold interval_at.
  destruct (Z.gtb_spec e 100), (Z.gtb_spec e 30),
    (Z.leb_spec e 30), (Z.leb_spec e 100); try lia; reflexivity.
Qed.

Lemma interval_next (si s e : Z) :
  s < e ->
  (if e >? 100 then 50 else if e >? 30 then 10 else interval_at si s)
  = interval_at si e.
Proof.
  intros Hlt. unfold interval_at.
  destruct (Z.gtb_spec e 100), (Z.gtb_spec e 30),
    (Z.leb_spec e 30), (Z.leb_spec e 100),
    (Z.leb_spec s 30), (Z.leb_spec s 100); try lia; reflexivity.
Qed.

Lemma interval_at_nonzero (si e : Z) : si <> 0 -> interval_at si e <> 0.
Proof.
  intros Hsi. unfold interval_at.
  destruct (e <=? 30); [assumption|]. destruct (e <=? 100); lia.
Qed.

(** An epoch whose interval is not zero and whose sample batch (the
    third batch it draws) can be plotted returns, and writes the files of
    [epoch_saved]. *)
Lemma train_epoch_saved (w : world) (b si e : Z) :
  let si' := if e >? 100 then 50 else if e >? 30 then 10 else si in
  si' <> 0 ->
  plottable (load_data (S (S (loader_calls w))) sample_args) ->
  exists (l : epoch_locals) (w' : world),
    train_epoch srgan b si e w = (inr l, w') /\
    e_sample_interval l = si' /\
    saved (trace w') = saved (trace w) ++ epoch_saved si' e.
Proof.
  intros si' Hsi Hplot. rewrite train_epoch_run. cbv zeta. fold si'.
  set (w1 := mkWorld _ _ (trace w ++ _)).
  assert (H1 : saved (trace w1) = saved (trace w))
    by (unfold w1; cbn [trace]; rewrite saved_app; cbn; apply app_nil_r).
  assert (Hc : loader_calls w1 = S (S (loader_calls w))) by reflexivity.
  destruct (si' =? 0) eqn:Hz; [apply Z.eqb_eq in Hz; contradiction|].
  destruct (sample_images_new_run srgan e w1) as (l & evs & Hrun & Hsaved & _).
  { rewrite Hc. exact Hplot. }
  rewrite Hrun, Hc. clearbody w1.
  unfold epoch_saved.
  destruct (e mod si' =? 0); destruct ((e mod 500 =? 0) && (e >? 1));
    eexists; eexists; (split; [reflexivity|]); (split; [reflexivity|]);
    cbn [log trace];
    rewrite ?saved_app, ?Hsaved, ?H1; cbn [saved filter is_saved app];
    rewrite ?app_nil_r, <- ?app_assoc; reflexivity.
Qed.

Lemma train_loop_saved (si0 b : Z) :
  si0 <> 0 ->
  (forall n, plottable (load_data n sample_args)) ->
  forall (n s : nat) (si : Z) (w : world),
    (forall e, Z.of_nat s <= e ->
       (if e >? 100 then 50 else if e >? 30 then 10 else si)
       = interval_at si0 e) ->
    exists (si_out : Z) (w' : world),
      for_each_with (map Z.of_nat (seq s n))
        (fun sample_interval epoch =>
           l <- train_epoch srgan b sample_interval epoch ;;
           pure (e_sample_interval l))
        si w
      = (inr si_out, w') /\
      saved (trace w')
      = saved (trace w)
        ++ flat_map (fun e => epoch_saved (interval_at si0 e) e)
             (map Z.of_nat (seq s n)).
Proof.
  intros Hsi0 Hplot. induction n as [|n IH]; intros s si w Hinv; simpl.
  - exists si, w. split; [reflexivity|]. now rewrite app_nil_r.
  - pose proof (Hinv (Z.of_nat s) (Z.le_refl _)) as Hs.
    destruct (train_epoch_saved w b si (Z.of_nat s))
      as (l & w1 & Hrun & Hl & Hsv).
    { rewrite Hs. now apply interval_at_nonzero. }
    { apply Hplot. }
    rewrite Hs in Hl, Hsv.
    unfold seq_run at 1. unfold seq_run at 1. rewrite Hrun. unfold pure at 1.
    destruct (IH (S s) (e_sample_interval l) w1)
      as (si_out & w' & Hloop & Hsv').
    { intros e He. rewrite Hl. apply interval_next. lia. }
    exists si_out, w'. split; [exact Hloop|].
    rewrite Hsv', Hsv, <- app_assoc. reflexivity.
Qed.


(** ** Targets *)

Lemma np_full_items (v : R) (shp : list Z) :
  Forall (Forall (fun x => x = v)) (items (np_full v shp)).
Proof.
  unfold np_full. cbn [items].
  apply Forall_forall. intros it Hit. apply repeat_spec in Hit. subst it.
  apply Forall_forall. intros x Hx. now apply repeat_spec in Hx.
Qed.

Lemma np_full_item_length (v : R) (shp : list Z) :
  Forall (fun it => List.length it = size_of (tl shp)) (items (np_full v shp)).
Proof.
  unfold np_full. cbn [items].
  apply Forall_forall. intros it Hit. apply repeat_spec in Hit. subst it.
  apply repeat_length.
Qed.

Lemma tensor_add_nth (a b : tensor) (i : nat) :
  (i < List.length a)%nat -> (i < List.length b)%nat ->
  nth i (tensor_add a b) 0%R = (nth i a 0 + nth i b 0)%R.
Proof.
  revert b i. induction a as [|x a IH]; intros [|y b] [|i] Ha Hb;
    simpl in *; try lia; try reflexivity.
  apply IH; lia.
Qed.

Lemma tensor_add_length (a b : tensor) :
  List.length (tensor_add a b) = Nat.min (List.length a) (List.length b).
Proof.
  revert b. induction a as [|x a IH]; intros [|y b]; simpl; auto.
Qed.

(** The events of an epoch, however it ends: its steps, then events
    that are no training steps. *)
Lemma train_epoch_trace (w : world) (b si e : Z) :
  let batch1 := load_data (loader_calls w) (mkLoad b None None) in
  let fake_hr := forward srgan (weights w) generator (snd batch1) in
  let valid := np_ones (b :: shape_list (disc_patch srgan)) in
  let fake := np_zeros (b :: shape_list (disc_patch srgan)) in
  let ws1 :=
    updated [discriminator]
      (optimizer_step discriminator (weights w) [fst batch1] [valid])
      (weights w) in
  let ws2 :=
    updated [discriminator]
      (optimizer_step discriminator ws1 [fake_hr] [fake]) ws1 in
  let batch2 := load_data (S (loader_calls w)) (mkLoad b None None) in
  let image_features := forward srgan ws2 vgg (fst batch2) in
  exists tail,
    trace (snd (train_epoch srgan b si e w))
    = trace w
      ++ [LoadData (mkLoad b None None);
          Predict generator (snd batch1);
          TrainOnBatch discriminator [fst batch1] [valid];
          TrainOnBatch discriminator [fake_hr] [fake];
          LoadData (mkLoad b None None);
          Predict vgg (fst batch2);
          TrainOnBatch combined [snd batch2; fst batch2]
                       [valid; image_features];
          PrintProgress e]
      ++ tail /\
    Forall (fun ev => is_training ev = false) tail.
Proof.
  intros.
  rewrite train_epoch_run. cbv zeta.
  fold batch1 valid fake fake_hr ws1 ws2.
  fold batch2 image_features.
  set (si' := if e >? 100 then 50 else if e >? 30 then 10 else si).
  set (steps := [LoadData _; _; _; _; _; _; _; PrintProgress e]).
  set (w1 := mkWorld _ _ (trace w ++ steps)).
  destruct (sample_images_new_frame srgan e w1)
    as (res & evs & Hrun & Hevs & _).
  rewrite Hrun.
  destruct (si' =? 0).
  { exists []. split; [|constructor].
    cbn [snd]. unfold w1. cbn [trace]. now rewrite app_nil_r. }
  destruct (e mod si' =? 0); [destruct res|];
    destruct ((e mod 500 =? 0) && (e >? 1));
    cbn [snd log trace weights loader_calls];
    unfold w1; cbn [trace]; rewrite <- ?app_assoc;
    eexists; (split; [reflexivity|]);
    try exact Hevs;
    try (apply Forall_app; split; [exact Hevs|]);
    repeat constructor.
Qed.

(** C2: every run of the body of the loop of [train] pulls a batch,
    lets the generator predict from its low-resolution half, trains the
    discriminator on the real images against ones and then on the
    generated images against zeros, pulls a second batch, takes the VGG
    features of its high-resolution half and trains the combined model on
    that batch against ones and these features, in this order and with no
    other training step, however the epoch ends afterwards; these steps
    always return, and the [d_loss] they compute is half the elementwise
    sum of the two discriminator losses. *)
Theorem train_epoch_order (w : world) (b si e : Z) :
  let si' := if e >? 100 then 50 else if e >? 30 then 10 else si in
  let batch1 := load_data (loader_calls w) (mkLoad b None None) in
  let fake_hr := forward srgan (weights w) generator (snd batch1) in
  let valid := np_ones (b :: shape_list (disc_patch srgan)) in
  let fake := np_zeros (b :: shape_list (disc_patch srgan)) in
  let d_loss_real :=
    batch_losses discriminator (weights w) [fst batch1] [valid] in
  let ws1 :=
    updated [discriminator]
      (optimizer_step discriminator (weights w) [fst batch1] [valid])
      (weights w) in
  let d_loss_fake := batch_losses discriminator ws1 [fake_hr] [fake] in
  let ws2 :=
    updated [discriminator]
      (optimizer_step discriminator ws1 [fake_hr] [fake]) ws1 in
  let batch2 := load_data (S (loader_calls w)) (mkLoad b None None) in
  let image_features := forward srgan ws2 vgg (fst batch2) in
  let g_loss :=
    batch_losses combined ws2 [snd batch2; fst batch2]
      [valid; image_features] in
  let d_loss := map (Rmult 0.5) (tensor_add d_loss_real d_loss_fake) in
  let steps :=
    [LoadData (mkLoad b None None);
     Predict generator (snd batch1);
     TrainOnBatch discriminator [fst batch1] [valid];
     TrainOnBatch discriminator [fake_hr] [fake];
     LoadData (mkLoad b None None);
     Predict vgg (fst batch2);
     TrainOnBatch combined [snd batch2; fst batch2] [valid; image_features];
     PrintProgress e] in
  Forall (Forall (fun v => v = 1%R)) (items valid) /\
  Forall (Forall (fun v => v = 0%R)) (items fake) /\
  (forall i, (i < List.length d_loss_real)%nat ->
             (i < List.length d_loss_fake)%nat ->
     nth i d_loss 0%R
     = (0.5 * (nth i d_loss_real 0 + nth i d_loss_fake 0))%R) /\
  fst (train_steps srgan b si e w) = inr (mkEpoch si' d_loss g_loss) /\
  trace (snd (train_steps srgan b si e w)) = trace w ++ steps /\
  exists tail,
    trace (snd (train_epoch srgan b si e w)) = trace w ++ steps ++ tail /\
    Forall (fun ev => is_training ev = false) tail.
Proof.
  intros.
  split; [apply np_full_items|]. split; [apply np_full_items|].
  split.
  { intros i Hr Hf. unfold d_loss.
    assert (Hi : (i < List.length (tensor_add d_loss_real d_loss_fake))%nat)
      by (rewrite tensor_add_length; lia).
    rewrite (nth_indep _ 0%R (0.5 * 0)%R) by now rewrite length_map.
    rewrite map_nth. now rewrite tensor_add_nth. }
  rewrite train_steps_run. cbn [fst snd trace].
  split; [reflexivity|]. split; [reflexivity|].
  apply train_epoch_trace.
Qed.

(** C3: the outputs of the combined model are [validity] and
    [fake_features], in this order; it is compiled with binary
    cross-entropy at weight 1e-3 on the first and mean squared error at
    weight 1 on the second, and its objective is the sum of the two
    weighted losses. *)
Theorem combined_objective_weighted (ws : model_name -> W)
  (imgs_lr imgs_hr valid image_features : ndarray) :
  let fake_hr := Apply generator (Placeholder "img_lr" (lr_shape srgan)) in
  let validity := Apply discriminator fake_hr in
  let fake_features := Apply vgg fake_hr in
  f_outputs (combined_model srgan) = [validity; fake_features] /\
  option_map (fun c => (loss (compiled_with c), loss_weights (compiled_with c)))
             (compiled_as (models srgan) combined)
  = Some ([binary_crossentropy; mse], [1e-3; 1]%Q) /\
  Q2R 1e-3 = (1 / 1000)%R /\
  combined_objective srgan ws [imgs_lr; imgs_hr] [valid; image_features]
  = Some (1 / 1000
          * loss_value binary_crossentropy valid
              (forward srgan ws discriminator
                 (forward srgan ws generator imgs_lr))
          + 1 * loss_value mse image_features
                  (forward srgan ws vgg
                     (forward srgan ws generator imgs_lr)))%R.
Proof.
  intros.
  assert (H3 : Q2R 1e-3 = (1 / 1000)%R) by (unfold Q2R; simpl; lra).
  assert (H1 : Q2R 1 = 1%R) by (unfold Q2R; simpl; lra).
  repeat split; try reflexivity; try exact H3.
  unfold combined_objective. rewrite srgan_combined_compiled.
  unfold objective, model_outputs.
  cbn [compiled_with loss loss_weights combined_model f_inputs f_outputs
       map combine placeholder_name eval_symbolic lookup fold_right].
  change (String.eqb "img_lr" "img_lr") with true. cbv iota.
  rewrite H3, H1. f_equal. lra.
Qed.

(** C4: when [vgg] is compiled it has no trainable weights, and when
    [combined] is compiled its only trainable weights are the
    generator's (the discriminator itself was compiled while trainable).
    Hence a training step of [combined] replaces the generator's weights
    and leaves those of the discriminator and of VGG as they are, no
    training step of any model changes the VGG weights, and neither does a
    whole run of [train]. *)
Theorem frozen_weights (w : world) (epochs b si : Z) (x y : list ndarray) :
  trainable (models srgan) vgg = false /\
  trainable (models srgan) discriminator = false /\
  option_map collected_trainable_weights (compiled_as (models srgan) vgg)
  = Some [] /\
  option_map collected_trainable_weights
             (compiled_as (models srgan) discriminator)
  = Some [discriminator] /\
  option_map collected_trainable_weights (compiled_as (models srgan) combined)
  = Some [generator] /\
  (let w' := snd (train_on_batch srgan combined x y w) in
   weights w' discriminator = weights w discriminator /\
   weights w' vgg = weights w vgg /\
   weights w' generator = optimizer_step combined (weights w) x y generator) /\
  (forall m, weights (snd (train_on_batch srgan m x y w)) vgg
             = weights w vgg) /\
  weights (snd (train srgan epochs b si w)) vgg = weights w vgg.
Proof.
  repeat split; try reflexivity.
  - intros m. unfold train_on_batch.
    destruct m; cbn [models srgan]; reflexivity.
  - apply train_weights. now left.
Qed.

Lemma discriminator_layer_ok_reflect (g : graph) (i : tensor_id) :
  discriminator_layer_okb g i = true -> discriminator_layer_ok g i.
Proof.
  unfold discriminator_layer_okb, discriminator_layer_ok.
  destruct (nth_error g i) as [[l ins]|]; [|discriminate].
  destruct l; try tauto.
  intros H. apply andb_prop in H. destruct H as [H Hk].
  apply andb_prop in H. destruct H as [Hs Hp].
  apply orb_prop in Hs. destruct pad; [|discriminate].
  rewrite !Z.eqb_eq in Hs. auto.
Qed.

(** C5: on the high-resolution shape (256, 256, 3) the discriminator
    yields the shape (16, 16, 1), which is [disc_patch], that is
    [hr_height / 2^4] in height and width; exactly four of its
    convolutions have stride 2, each halving height and width, all other
    layers keep them, and it ends in [Dense], [LeakyReLU] and a [Dense]
    layer of one unit with [sigmoid], so that every value it yields is
    between 0 and 1; the targets of the discriminator's training steps in
    [train] have the shape [disc_patch] for every element of the batch. *)
Theorem discriminator_patch_output
  (trained : tensor_id -> layer -> list tensor -> tensor) (feed : tensor)
  (w : world) (b si e : Z) :
  let D := build_discriminator srgan in
  let valid := np_ones (b :: shape_list (disc_patch srgan)) in
  let fake := np_zeros (b :: shape_list (disc_patch srgan)) in
  hr_shape srgan = (256, 256, 3) /\
  input_shape D = [Some (hr_shape srgan)] /\
  output_shape D = [Some (disc_patch srgan)] /\
  disc_patch srgan = (16, 16, 1) /\
  disc_patch srgan = (hr_height srgan / 2 ^ 4, hr_height srgan / 2 ^ 4, 1) /\
  count_layers is_stride2 (layers D) = 4%nat /\
  Forall (discriminator_layer_ok (layers D))
         (seq 0 (List.length (layers D))) /\
  map layer_of (skipn (List.length (layers D) - 3) (layers D))
  = [Dense 1024 None; LeakyReLU 0.2; Dense 1 (Some Sigmoid)] /\
  Forall (fun v => 0 <= v <= 1)%R (run_model trained feed D) /\
  nd_shape valid = b :: shape_list (disc_patch srgan) /\
  nd_shape fake = b :: shape_list (disc_patch srgan) /\
  Forall (fun it => List.length it = (16 * 16 * 1)%nat) (items valid) /\
  Forall (fun it => List.length it = (16 * 16 * 1)%nat) (items fake) /\
  exists imgs_hr imgs_lr fake_hr tail,
    trace (snd (train_epoch srgan b si e w))
    = trace w
      ++ [LoadData (mkLoad b None None);
          Predict generator imgs_lr;
          TrainOnBatch discriminator [imgs_hr] [valid];
          TrainOnBatch discriminator [fake_hr] [fake]]
      ++ tail.
Proof.
  intros D valid fake.
  split; [reflexivity|].
  split; [vm_compute; reflexivity|].
  split; [vm_compute; reflexivity|].
  split; [reflexivity|].
  split; [reflexivity|].
  split; [vm_compute; reflexivity|].
  split.
  { apply Forall_forall. intros i Hi.
    apply discriminator_layer_ok_reflect.
    revert i Hi. apply forallb_forall. vm_compute. reflexivity. }
  split; [vm_compute; reflexivity|].
  split; [apply discriminator_output_bounds|].
  split; [reflexivity|].
  split; [reflexivity|].
  split; [exact (np_full_item_length 1%R (_ :: shape_list (disc_patch srgan)))|].
  split; [exact (np_full_item_length 0%R (_ :: shape_list (disc_patch srgan)))|].
  destruct (train_epoch_trace w b si e) as (tail & Htr & _).
  do 4 eexists. rewrite Htr. cbn [app]. reflexivity.
Qed.

(** An epoch whose figure is due while the sample batch holds a single
    high-resolution image stops at the [IndexError] of the grid, having
    written nothing. *)
Lemma train_epoch_single (w : world) (b si e : Z) :
  let si' := if e >? 100 then 50 else if e >? 30 then 10 else si in
  si' <> 0 -> e mod si' = 0 ->
  len (fst (load_data (S (S (loader_calls w))) sample_args)) = 1%nat ->
  fst (train_epoch srgan b si e w) = inl IndexError /\
  saved (trace (snd (train_epoch srgan b si e w))) = saved (trace w).
Proof.
  intros si' Hsi Hmod H1. rewrite train_epoch_run. cbv zeta. fold si'.
  set (w1 := mkWorld _ _ (trace w ++ _)).
  assert (Hs : saved (trace w1) = saved (trace w))
    by (unfold w1; cbn [trace]; rewrite saved_app; cbn; apply app_nil_r).
  assert (Hc : loader_calls w1 = S (S (loader_calls w))) by reflexivity.
  rewrite <- Hc in H1.
  rewrite (sample_images_new_single srgan e w1 H1). clearbody w1.
  apply Z.eqb_neq in Hsi. rewrite Hsi, Hmod. cbn [Z.eqb fst snd trace].
  split; [reflexivity|]. rewrite saved_app, Hs. cbn. apply app_nil_r.
Qed.

(** A run of at least one epoch whose first sample batch holds a single
    high-resolution image stops in epoch 0, at the [IndexError] of the
    grid, and has written nothing. *)
Lemma train_single (w : world) (epochs b si : Z) :
  0 < epochs -> si <> 0 ->
  len (fst (load_data (S (S (loader_calls w))) sample_args)) = 1%nat ->
  fst (train srgan epochs b si w) = inl IndexError /\
  saved (trace (snd (train srgan epochs b si w))) = saved (trace w).
Proof.
  intros He Hsi H1.
  destruct (@train_epoch_single w b si 0 Hsi (Z.mod_0_l si Hsi) H1)
    as [Hfst Hsaved].
  rewrite train_loop. unfold range.
  destruct (Z.to_nat epochs) as [|n] eqn:Hn; [lia|].
  cbn [seq map]. change (Z.of_nat 0) with 0.
  rewrite train_loop_step.
  destruct (train_epoch srgan b si 0 w) as [[ex|l] w'];
    cbn [fst snd] in *; [|discriminate].
  inversion Hfst. auto.
Qed.

(** C10, as amended: for a [sample_interval] other than 0 and sample
    batches that the plotting code accepts, [train] returns, and the files
    it writes are, epoch by epoch in [range(epochs)], the figure
    ['images/<e>.png'] exactly when [e] is divisible by the interval of
    the epoch ([sample_interval] up to epoch 30, 10 from 31 to 100, 50
    above), and the weights ['./saved_model/<e>.h5'] exactly when [e] is
    divisible by 500 and greater than 1; epoch 0 writes its figure and no
    weights. *)
Theorem train_saves (w : world) (epochs b si : Z) :
  si <> 0 ->
  (forall n, plottable (load_data n sample_args)) ->
  fst (train srgan epochs b si w) = inr tt /\
  saved (trace (snd (train srgan epochs b si w)))
  = saved (trace w)
    ++ flat_map (fun e => epoch_saved (interval_at si e) e) (range epochs) /\
  (forall e, (e mod interval_at si e =? 0) = true
             <-> (interval_at si e | e)) /\
  (forall e, e <= 30 -> interval_at si e = si) /\
  (forall e, 31 <= e <= 100 -> interval_at si e = 10) /\
  (forall e, 100 < e -> interval_at si e = 50) /\
  epoch_saved (interval_at si 0) 0 = [Savefig "images/0.png"].
Proof.
  intros Hsi Hplot.
  destruct (train_loop_saved b Hsi Hplot (Z.to_nat epochs) 0 si w)
    as (si_out & w' & Hloop & Hsaved).
  { intros e _. apply interval_first. }
  fold (range epochs) in Hloop, Hsaved.
  assert (Hrun : train srgan epochs b si w = (inr tt, w'))
    by (unfold train; unfold seq_run at 1; now rewrite Hloop).
  rewrite Hrun. cbn [fst snd].
  split; [reflexivity|]. split; [exact Hsaved|].
  split.
  { intros e. rewrite Z.eqb_eq. apply Z.mod_divide.
    now apply interval_at_nonzero. }
  split.
  { intros e He. unfold interval_at.
    destruct (Z.leb_spec e 30); [reflexivity|lia]. }
  split.
  { intros e He. unfold interval_at.
    destruct (Z.leb_spec e 30); [lia|].
    destruct (Z.leb_spec e 100); [reflexivity|lia]. }
  split.
  { intros e He. unfold interval_at.
    destruct (Z.leb_spec e 30); [lia|].
    destruct (Z.leb_spec e 100); [lia|reflexivity]. }
  unfold epoch_saved. now rewrite Z.mod_0_l by now apply interval_at_nonzero.
Qed.

(** ** test_images *)

Lemma metrics_loop (pairs : list (tensor * tensor)) (ps ss : list R)
  (w : world) :
  for_each_with pairs
    (fun acc pair =>
       let '(psnr_values, ssim_values) := acc in
       let '(img_real, img_generated) := pair in
       let img_real := to_uint8 img_real in
       let img_generated := to_uint8 img_generated in
       emit (Psnr img_real img_generated) ;;;
       let psnr_value := psnr img_real img_generated in
       let psnr_values := psnr_values ++ [psnr_value] in
       emit (Ssim img_real img_generated) ;;;
       let ssim_value := ssim img_real img_generated in
       let ssim_values := ssim_values ++ [ssim_value] in
       pure (psnr_values, ssim_values))
    (ps, ss) w
  = (inr (ps ++ map (fun p => psnr (to_uint8 (fst p)) (to_uint8 (snd p)))
                    pairs,
          ss ++ map (fun p => ssim (to_uint8 (fst p)) (to_uint8 (snd p)))
                    pairs),
     log (flat_map metric_events pairs) w).
Proof.
  revert ps ss w. induction pairs as [|[img_real img_generated] pairs IH];
    intros ps ss w.
  - cbn [for_each_with map flat_map]. unfold pure.
    now rewrite !app_nil_r, log_nil.
  - cbn [for_each_with]. unfold seq_run at 1.
    unfold seq_run at 1. unfold emit at 1.
    unfold seq_run at 1. unfold emit at 1. unfold pure at 1.
    rewrite IH, !log_log. cbn [map flat_map fst snd app metric_events].
    now rewrite <- !app_assoc.
Qed.

Lemma imsave_loop (xs : list (nat * (tensor * tensor))) (w : world) :
  for_each xs
    (fun e =>
       let '(i, (lr_img, hr_img)) := e in
       let n := str (Z.of_nat i + 1) in
       emit (Imsave ("./res/bicubic_downsampling_" ++ n ++ ".png") lr_img) ;;;
       emit (Imsave ("./res/gen_high_resolution_" ++ n ++ ".png") hr_img))
    w
  = (inr tt, log (flat_map imsave_events xs) w).
Proof.
  apply for_each_log. intros [i [lr_img hr_img]] w'.
  unfold seq_run, emit. now rewrite log_log.
Qed.

(** [test_images] on any batch: it draws the batch, loads the weights,
    predicts and shows what the grid can show; when the whole grid was
    shown it goes on to write the images and to score them, and it stops
    at the exception of the grid otherwise. *)
Lemma test_images_cases (self : SRGAN) (b : Z) (w : world) :
  let batch := load_data (loader_calls w) (mkLoad b None (Some true)) in
  let ws := fun n => if model_name_eqb n generator
                     then weights_file ("./saved_model/" ++ str 2000 ++ ".h5")
                     else weights w n in
  let imgs_lr := rescale (snd batch) in
  let fake_hr := rescale (forward self ws generator (snd batch)) in
  let imgs_hr := rescale (fst batch) in
  let pairs := zip (items imgs_hr) (items fake_hr) in
  let psnr_values :=
    map (fun p => psnr (to_uint8 (fst p)) (to_uint8 (snd p))) pairs in
  let ssim_values :=
    map (fun p => ssim (to_uint8 (fst p)) (to_uint8 (snd p))) pairs in
  let titles :=
    ["Low resolution input"; "Generated Super resolution"]%string in
  let pre :=
    [LoadData (mkLoad b None (Some true));
     Makedirs "saved_model/";
     LoadWeights ("./saved_model/" ++ str 2000 ++ ".h5");
     Predict generator (snd batch)] in
  exists res grid,
    logs (show_grid (len (fst batch)) titles [imgs_lr; fake_hr]) res grid /\
    Forall (shows titles [imgs_lr; fake_hr]) grid /\
    test_images self b w
    = match res with
      | inl ex =>
          (inl ex, mkWorld ws (S (loader_calls w)) (trace w ++ pre ++ grid))
      | inr _ =>
          (inr (mkTest imgs_lr fake_hr imgs_hr psnr_values ssim_values
                       (np_mean psnr_values) (np_mean ssim_values)),
           mkWorld ws (S (loader_calls w))
             (trace w
              ++ (pre
                  ++ grid
                  ++ [Savefig "./result.png"]
                  ++ flat_map imsave_events
                       (enumerate (zip (items imgs_lr) (items fake_hr)))
                  ++ flat_map metric_events pairs
                  ++ [PrintValues psnr_values;
                      PrintValues ssim_values;
                      PrintAverage "Average PSNR" (np_mean psnr_values);
                      PrintAverage "Average SSIM" (np_mean ssim_values);
                      PrintEnd])))
      end.
Proof.
  intros.
  destruct (show_grid_logs (len (fst batch)) titles [imgs_lr; fake_hr])
    as (res & grid & Hlogs & Hgrid).
  exists res, grid. split; [exact Hlogs|]. split; [exact Hgrid|].
  unfold test_images.
  unfold seq_run at 1. unfold data_loader_load_data at 1.
  fold batch. destruct batch as [hr lr] eqn:Hbatch.
  unfold seq_run at 1. unfold emit at 1.
  unfold seq_run at 1. unfold load_weights at 1.
  unfold seq_run at 1. unfold predict at 1.
  cbn [weights loader_calls trace log fst snd] in *.
  fold ws. fold imgs_lr fake_hr imgs_hr.
  unfold seq_run at 1. fold titles. rewrite Hlogs.
  destruct res as [ex|[]].
  { unfold log. cbn [weights loader_calls trace].
    rewrite <- !app_assoc. reflexivity. }
  unfold seq_run at 1. unfold emit at 1.
  unfold seq_run at 1. rewrite imsave_loop.
  unfold seq_run at 1. rewrite metrics_loop.
  cbn [app]. fold pairs psnr_values ssim_values.
  unfold seq_run, emit, pure, log.
  cbn [weights loader_calls trace].
  f_equal. f_equal.
  rewrite <- !app_assoc. reflexivity.
Qed.

Lemma plottable_test_grid (self : SRGAN) (ws : model_name -> W)
  (batch : ndarray * ndarray) :
  plottable batch ->
  (2 <= len (fst batch))%nat /\
  Forall (fun image => (len (fst batch) <= len image)%nat)
    [rescale (snd batch); rescale (forward self ws generator (snd batch))].
Proof.
  intros [H2 Hle]. split; [exact H2|].
  repeat constructor; rewrite !len_rescale, ?len_forward; auto.
Qed.

(** On a batch the plotting code accepts [test_images] returns; its
    locals and its events. *)
Lemma test_images_run (self : SRGAN) (b : Z) (w : world) :
  let batch := load_data (loader_calls w) (mkLoad b None (Some true)) in
  let ws := fun n => if model_name_eqb n generator
                     then weights_file ("./saved_model/" ++ str 2000 ++ ".h5")
                     else weights w n in
  let imgs_lr := rescale (snd batch) in
  let fake_hr := rescale (forward self ws generator (snd batch)) in
  let imgs_hr := rescale (fst batch) in
  let pairs := zip (items imgs_hr) (items fake_hr) in
  let psnr_values :=
    map (fun p => psnr (to_uint8 (fst p)) (to_uint8 (snd p))) pairs in
  let ssim_values :=
    map (fun p => ssim (to_uint8 (fst p)) (to_uint8 (snd p))) pairs in
  plottable batch ->
  test_images self b w
  = (inr (mkTest imgs_lr fake_hr imgs_hr psnr_values ssim_values
                 (np_mean psnr_values) (np_mean ssim_values)),
     mkWorld ws (S (loader_calls w))
       (trace w
        ++ ([LoadData (mkLoad b None (Some true));
             Makedirs "saved_model/";
             LoadWeights ("./saved_model/" ++ str 2000 ++ ".h5");
             Predict generator (snd batch)]
            ++ grid_events (len (fst batch))
                 ["Low resolution input"; "Generated Super resolution"]%string
                 [imgs_lr; fake_hr]
            ++ [Savefig "./result.png"]
            ++ flat_map imsave_events
                 (enumerate (zip (items imgs_lr) (items fake_hr)))
            ++ flat_map metric_events pairs
            ++ [PrintValues psnr_values;
                PrintValues ssim_values;
                PrintAverage "Average PSNR" (np_mean psnr_values);
                PrintAverage "Average SSIM" (np_mean ssim_values);
                PrintEnd]))).
Proof.
  intros batch ws imgs_lr fake_hr imgs_hr pairs psnr_values ssim_values Hplot.
  destruct (test_images_cases self b w)
    as (res & grid & Hlogs & _ & Hrun).
  cbv zeta in Hlogs, Hrun. fold batch ws in Hlogs, Hrun.
  destruct (plottable_test_grid self ws Hplot) as [H2 Hall].
  destruct (logs_unique w Hlogs (show_grid_ok _ H2 Hall)) as [-> ->].
  exact Hrun.
Qed.

(** A batch of one high-resolution image cannot be plotted:
    [test_images] raises after the prediction, before it writes or scores
    anything. *)
Lemma test_images_single (self : SRGAN) (b : Z) (w : world) :
  let batch := load_data (loader_calls w) (mkLoad b None (Some true)) in
  len (fst batch) = 1%nat ->
  test_images self b w
  = (inl IndexError,
     mkWorld
       (fun n => if model_name_eqb n generator
                 then weights_file ("./saved_model/" ++ str 2000 ++ ".h5")
                 else weights w n)
       (S (loader_calls w))
       (trace w
        ++ [LoadData (mkLoad b None (Some true));
            Makedirs "saved_model/";
            LoadWeights ("./saved_model/" ++ str 2000 ++ ".h5");
            Predict generator (snd batch)])).
Proof.
  intros batch H1.
  destruct (test_images_cases self b w)
    as (res & grid & Hlogs & _ & Hrun).
  cbv zeta in Hlogs, Hrun. fold batch in Hlogs, Hrun.
  rewrite H1 in Hlogs.
  destruct (logs_unique w Hlogs (show_grid_single _ _ _)) as [-> ->].
  rewrite Hrun, app_nil_r. reflexivity.
Qed.

Lemma filter_flat_map_nil {A} (p : event -> bool) (f : A -> list event)
  (xs : list A) :
  (forall x, filter p (f x) = []) -> filter p (flat_map f xs) = [].
Proof.
  intros Hf. induction xs as [|x xs IH]; simpl; [reflexivity|].
  now rewrite filter_app, Hf, IH.
Qed.

Lemma filter_metric_events (pairs : list (tensor * tensor)) :
  filter is_metric (flat_map metric_events pairs)
  = flat_map metric_events pairs.
Proof.
  induction pairs as [|p pairs IH]; simpl; [reflexivity|]. now rewrite IH.
Qed.

(** The calls of the metrics among the events of [test_images]. *)
Lemma test_images_metric_calls (grid : list event) (a0 a1 a2 a3 : event)
  (xs : list (nat * (tensor * tensor))) (pairs : list (tensor * tensor))
  (ps ss : list R) (p1 p2 : R) :
  Forall (fun ev => is_imshow ev = true) grid ->
  is_metric a0 = false -> is_metric a1 = false ->
  is_metric a2 = false -> is_metric a3 = false ->
  filter is_metric
    ([a0; a1; a2; a3]
     ++ grid
     ++ [Savefig "./result.png"]
     ++ flat_map imsave_events xs
     ++ flat_map metric_events pairs
     ++ [PrintValues ps; PrintValues ss;
         PrintAverage "Average PSNR" p1; PrintAverage "Average SSIM" p2;
         PrintEnd])
  = flat_map metric_events pairs.
Proof.
  intros Hgrid H0 H1 H2 H3.
  rewrite !filter_app. cbn [filter]. rewrite H0, H1, H2, H3.
  cbn [is_metric app].
  rewrite filter_metric_events, app_nil_r.
  rewrite (filter_imshow_nil is_metric) with (evs := grid).
  2:{ intros [] H; try discriminate; reflexivity. }
  2:{ exact Hgrid. }
  rewrite filter_flat_map_nil.
  2:{ intros [i [lr_img hr_img]]. reflexivity. }
  reflexivity.
Qed.

Lemma grid_events_imshow (r : nat) (titles : list string)
  (images : list ndarray) :
  Forall (fun ev => is_imshow ev = true) (grid_events r titles images).
Proof.
  unfold grid_events.
  apply Forall_flat_map. intros row.
  apply Forall_flat_map. intros ci. repeat constructor.
Qed.


(** C7, as amended: on a batch that the plotting code accepts (at
    least two high-resolution images and no fewer low-resolution ones)
    [test_images] returns; for every pair of a real and a generated image
    of the batch, both converted to uint8, it calls PSNR and SSIM once, in
    the order of the batch, and it calls them on nothing else; the values
    it collects are the values of these calls, and the two averages it
    reports are the sums of the collected values divided by the number of
    pairs. *)
Theorem test_images_scores (self : SRGAN) (w : world) (b : Z) :
  let batch := load_data (loader_calls w) (mkLoad b None (Some true)) in
  let ws := fun n => if model_name_eqb n generator
                     then weights_file ("./saved_model/" ++ str 2000 ++ ".h5")
                     else weights w n in
  let imgs_hr := rescale (fst batch) in
  let fake_hr := rescale (forward self ws generator (snd batch)) in
  let pairs := zip (items imgs_hr) (items fake_hr) in
  let psnr_values :=
    map (fun p => psnr (to_uint8 (fst p)) (to_uint8 (snd p))) pairs in
  let ssim_values :=
    map (fun p => ssim (to_uint8 (fst p)) (to_uint8 (snd p))) pairs in
  let avg_psnr :=
    (fold_right Rplus 0 psnr_values / INR (List.length pairs))%R in
  let avg_ssim :=
    (fold_right Rplus 0 ssim_values / INR (List.length pairs))%R in
  plottable batch ->
  exists (l : test_locals) (w' : world) (evs pre : list event),
    test_images self b w = (inr l, w') /\
    t_psnr_values l = psnr_values /\
    t_ssim_values l = ssim_values /\
    t_avg_psnr l = avg_psnr /\
    t_avg_ssim l = avg_ssim /\
    trace w' = trace w ++ evs /\
    filter is_metric evs = flat_map metric_events pairs /\
    evs = pre ++ [PrintValues psnr_values;
                  PrintValues ssim_values;
                  PrintAverage "Average PSNR" avg_psnr;
                  PrintAverage "Average SSIM" avg_ssim;
                  PrintEnd].
Proof.
  intros batch ws imgs_hr fake_hr pairs psnr_values ssim_values
    avg_psnr avg_ssim Hplot.
  assert (Hp : np_mean psnr_values = avg_psnr)
    by (unfold np_mean, avg_psnr, psnr_values; now rewrite length_map).
  assert (Hs : np_mean ssim_values = avg_ssim)
    by (unfold np_mean, avg_ssim, ssim_values; now rewrite length_map).
  pose proof (@test_images_run self b w Hplot) as Hrun. cbv zeta in Hrun.
  fold batch ws imgs_hr fake_hr pairs psnr_values ssim_values in Hrun.
  rewrite Hp, Hs in Hrun.
  eexists. eexists. eexists. eexists.
  split; [exact Hrun|].
  cbn [t_psnr_values t_ssim_values t_avg_psnr t_avg_ssim trace].
  do 5 (split; [reflexivity|]).
  split.
  - apply test_images_metric_calls; try reflexivity.
    apply grid_events_imshow.
  - match goal with
    | |- ?a0 ++ ?a1 ++ ?a2 ++ ?a3 ++ ?a4 ++ _ = ?pre ++ _ =>
        unify pre (a0 ++ a1 ++ a2 ++ a3 ++ a4)
    end.
    rewrite <- !app_assoc. reflexivity.
Qed.

(** ** Pixel ranges *)





Lemma forward_generator_bounds (ws : model_name -> W) (x : ndarray) :
  Forall (Forall (fun v => -1 <= v <= 1)%R)
         (items (forward srgan ws generator x)).
Proof.
  unfold forward. cbn [items]. apply Forall_map.
  apply Forall_forall. intros img _. unfold apply_model.
  apply generator_output_bounds.
Qed.

Lemma rescale_unit (a : ndarray) :
  Forall (Forall (fun v => -1 <= v <= 1)%R) (items a) ->
  Forall (Forall (fun v => 0 <= v <= 1)%R) (items (rescale a)).
Proof.
  intros H. unfold rescale, nd_map. cbn [items]. apply Forall_map.
  eapply Forall_impl; [|exact H]. intros img Himg. cbv beta in *.
  apply Forall_map. eapply Forall_impl; [|exact Himg].
  intros v Hv. cbv beta in *. lra.
Qed.


Lemma metric_event_in (ev : event) (evs : list event)
  (pairs : list (tensor * tensor)) :
  filter is_metric evs = flat_map metric_events pairs ->
  In ev evs -> is_metric ev = true ->
  exists p, In p pairs /\ In ev (metric_events p).
Proof.
  intros Hf Hin Hm.
  assert (H : In ev (filter is_metric evs)) by (apply filter_In; auto).
  rewrite Hf in H. apply in_flat_map in H. exact H.
Qed.


(** The generated images among the events of [test_images], however it
    ends: those shown in the second column of the grid and those written
    to ['./res/gen_high_resolution_<i>.png'] are items of the rescaled
    prediction. *)
Lemma test_images_generated (self : SRGAN) (b : Z) (w : world) :
  let batch := load_data (loader_calls w) (mkLoad b None (Some true)) in
  let ws := fun n => if model_name_eqb n generator
                     then weights_file ("./saved_model/" ++ str 2000 ++ ".h5")
                     else weights w n in
  let fake_hr := rescale (forward self ws generator (snd batch)) in
  exists evs,
    trace (snd (test_images self b w)) = trace w ++ evs /\
    (forall row title img,
       In (Imshow row 1 title img) evs -> In img (items fake_hr)) /\
    (forall n img,
       In (Imsave ("./res/gen_high_resolution_" ++ n ++ ".png") img) evs ->
       In img (items fake_hr)).
Proof.
  intros.
  destruct (test_images_cases self b w)
    as (res & grid & _ & Hgrid & Hrun).
  cbv zeta in Hgrid, Hrun. fold batch ws fake_hr in Hgrid, Hrun.
  rewrite Forall_forall in Hgrid.
  assert (Hshown : forall row title img,
            In (Imshow row 1 title img) grid -> In img (items fake_hr)).
  { intros row title img Hin. apply Hgrid in Hin.
    destruct Hin as (_ & image & Hcol & Hrow).
    inversion Hcol. subst image. eapply nth_error_In, Hrow. }
  assert (Hnone : forall path img, In (Imsave path img) grid -> False).
  { intros path img Hin. apply Hgrid in Hin. exact Hin. }
  rewrite Hrun.
  destruct res as [ex|[]]; cbn [snd trace]; eexists;
    (split; [reflexivity|]); split.
  - intros row title img Hin. apply in_app_or in Hin.
    destruct Hin as [Hin|Hin]; [|eauto].
    cbn [In] in Hin. repeat (destruct Hin as [Hin|Hin]; try discriminate).
    contradiction.
  - intros n img Hin. apply in_app_or in Hin.
    destruct Hin as [Hin|Hin]; [|exfalso; eauto].
    cbn [In] in Hin. repeat (destruct Hin as [Hin|Hin]; try discriminate).
    contradiction.
  - intros row title img Hin.
    repeat (apply in_app_or in Hin; destruct Hin as [Hin|Hin]).
    + cbn [In] in Hin. repeat (destruct Hin as [Hin|Hin]; try discriminate).
      contradiction.
    + eauto.
    + destruct Hin as [Hin|[]]. discriminate.
    + apply in_flat_map in Hin. destruct Hin as ([i [lr hr]] & _ & Hin).
      cbn [imsave_events In] in Hin.
      repeat (destruct Hin as [Hin|Hin]; try discriminate). contradiction.
    + apply in_flat_map in Hin. destruct Hin as (p0 & _ & Hin).
      cbn [metric_events In] in Hin.
      repeat (destruct Hin as [Hin|Hin]; try discriminate). contradiction.
    + cbn [In] in Hin. repeat (destruct Hin as [Hin|Hin]; try discriminate).
      contradiction.
  - intros n img Hin.
    repeat (apply in_app_or in Hin; destruct Hin as [Hin|Hin]).
    + cbn [In] in Hin. repeat (destruct Hin as [Hin|Hin]; try discriminate).
      contradiction.
    + exfalso. eauto.
    + destruct Hin as [Hin|[]]. discriminate.
    + apply in_flat_map in Hin. destruct Hin as ([i [lr hr]] & Hp & Hin).
      cbn [imsave_events In] in Hin.
      destruct Hin as [Hin|[Hin|[]]].
      * exfalso. cbn [append] in Hin. discriminate.
      * inversion Hin. subst img.
        unfold enumerate in Hp. apply in_combine_r in Hp.
        unfold zip in Hp. apply in_combine_r in Hp. exact Hp.
    + apply in_flat_map in Hin. destruct Hin as (p0 & _ & Hin).
      cbn [metric_events In] in Hin.
      repeat (destruct Hin as [Hin|Hin]; try discriminate). contradiction.
    + cbn [In] in Hin. repeat (destruct Hin as [Hin|Hin]; try discriminate).
      contradiction.
Qed.

(** The generated images among the events of [sample_images_new],
    however it ends: those shown in the first column of the grid. *)
Lemma sample_images_new_generated (self : SRGAN) (epoch : Z) (w : world) :
  let batch := load_data (loader_calls w) sample_args in
  let fake_hr := rescale (forward self (weights w) generator (snd batch)) in
  exists evs,
    trace (snd (sample_images_new self epoch w)) = trace w ++ evs /\
    forall row title img,
      In (Imshow row 0 title img) evs -> In img (items fake_hr).
Proof.
  intros.
  destruct (sample_images_new_cases self epoch w)
    as (res & grid & _ & Hgrid & Hrun).
  cbv zeta in Hgrid, Hrun. fold batch fake_hr in Hgrid, Hrun.
  rewrite Forall_forall in Hgrid.
  assert (Hshown : forall row title img,
            In (Imshow row 0 title img) grid -> In img (items fake_hr)).
  { intros row title img Hin. apply Hgrid in Hin.
    destruct Hin as (_ & image & Hcol & Hrow).
    inversion Hcol. subst image. eapply nth_error_In, Hrow. }
  rewrite Hrun.
  destruct res as [ex|l]; cbn [snd trace]; eexists;
    (split; [reflexivity|]); intros row title img Hin;
    repeat (apply in_app_or in Hin; destruct Hin as [Hin|Hin]);
    eauto;
    cbn [In] in Hin; repeat (destruct Hin as [Hin|Hin]; try discriminate);
    contradiction.
Qed.

(** C9: the generator ends in a convolution with [tanh] activation, so
    every value of every image it yields is between -1 and 1, and the
    rescaling [0.5 * x + 0.5] brings it between 0 and 1. In every run of
    [test_images] and of [sample_images_new], however it ends, the
    generated images that are shown (and, in [test_images], written) have
    all their values between 0 and 1; on a batch that the plotting code
    accepts the two methods return, with such a [fake_hr]. *)
Theorem generated_pixels_bounded
  (trained : tensor_id -> layer -> list tensor -> tensor) (feed : tensor)
  (w : world) (b epoch : Z) :
  let G := build_generator srgan in
  nth_error (layers G) (hd O (outputs G))
  = Some (mkNode (Conv2D (channels srgan) 9 1 Same (Some Tanh))
                 [g_u2 (fst (generator_body srgan []))]) /\
  Forall (fun v => -1 <= v <= 1)%R (run_model trained feed G) /\
  (forall ws x,
     Forall (Forall (fun v => -1 <= v <= 1)%R)
            (items (forward srgan ws generator x))) /\
  (forall ws x,
     Forall (Forall (fun v => 0 <= v <= 1)%R)
            (items (rescale (forward srgan ws generator x)))) /\
  (exists evs,
     trace (snd (test_images srgan b w)) = trace w ++ evs /\
     (forall row title img,
        In (Imshow row 1 title img) evs ->
        Forall (fun v => 0 <= v <= 1)%R img) /\
     (forall n img,
        In (Imsave ("./res/gen_high_resolution_" ++ n ++ ".png") img) evs ->
        Forall (fun v => 0 <= v <= 1)%R img)) /\
  (exists evs,
     trace (snd (sample_images_new srgan epoch w)) = trace w ++ evs /\
     forall row title img,
       In (Imshow row 0 title img) evs ->
       Forall (fun v => 0 <= v <= 1)%R img) /\
  (plottable (load_data (loader_calls w) (mkLoad b None (Some true))) ->
   exists l w',
     test_images srgan b w = (inr l, w') /\
     Forall (Forall (fun v => 0 <= v <= 1)%R) (items (t_fake_hr l))) /\
  (plottable (load_data (loader_calls w) sample_args) ->
   exists l w',
     sample_images_new srgan epoch w = (inr l, w') /\
     Forall (Forall (fun v => 0 <= v <= 1)%R) (items (s_fake_hr l))).
Proof.
  intros G.
  assert (Hunit : forall ws x,
            Forall (Forall (fun v => 0 <= v <= 1)%R)
                   (items (rescale (forward srgan ws generator x))))
    by (intros ws x; apply rescale_unit, forward_generator_bounds).
  split; [vm_compute; reflexivity|].
  split; [apply generator_output_bounds|].
  split; [exact forward_generator_bounds|].
  split; [exact Hunit|].
  split; [|split; [|split]].
  - destruct (test_images_generated srgan b w) as (evs & Htr & Hshow & Hsave).
    cbv zeta in Hshow, Hsave.
    exists evs. split; [exact Htr|]. split.
    + intros row title img Hin. apply Hshow in Hin.
      revert img Hin. apply Forall_forall, Hunit.
    + intros n img Hin. apply Hsave in Hin.
      revert img Hin. apply Forall_forall, Hunit.
  - destruct (sample_images_new_generated srgan epoch w) as (evs & Htr & Hshow).
    cbv zeta in Hshow.
    exists evs. split; [exact Htr|].
    intros row title img Hin. apply Hshow in Hin.
    revert img Hin. apply Forall_forall, Hunit.
  - intros Hplot.
    pose proof (@test_images_run srgan b w Hplot) as Hrun. cbv zeta in Hrun.
    eexists. eexists. split; [exact Hrun|].
    cbn [t_fake_hr]. apply Hunit.
  - intros Hplot.
    destruct (@sample_images_new_run srgan epoch w Hplot)
      as (l & evs & Hrun & _ & _ & Hfake).
    exists l. eexists. split; [exact Hrun|].
    rewrite Hfake. apply Hunit.
Qed.

(** ** The generator for other hyper-parameters *)

Lemma count_layers_app (p : layer -> bool) (g d : graph) :
  count_layers p (g ++ d) = (count_layers p g + count_layers p d)%nat.
Proof. unfold count_layers. now rewrite filter_app, length_app. Qed.

Lemma adds_ret {A} (a : A) : adds_nodes (ret a) 0 0.
Proof. intros g. unfold ret. cbn [snd]. split; apply plus_n_O. Qed.

Lemma adds_call (l : layer) (ins : list tensor_id) :
  adds_nodes (call l ins) 1 (if is_add l then 1 else 0).
Proof.
  intros g. unfold call. cbn [snd].
  rewrite length_app, count_layers_app. unfold count_layers. cbn.
  destruct (is_add l); cbn; lia.
Qed.

Lemma adds_bind {A B} (m : Build A) (k : A -> Build B) (k1 c1 k2 c2 : nat) :
  adds_nodes m k1 c1 -> (forall a, adds_nodes (k a) k2 c2) ->
  adds_nodes (bind m k) (k1 + k2) (c1 + c2).
Proof.
  intros Hm Hk g. unfold bind.
  destruct (Hm g) as [Hl Hc]. destruct (m g) as [a g1]. cbn [snd] in *.
  destruct (Hk a g1) as [Hl' Hc']. lia.
Qed.

Lemma adds_weaken {A} (m : Build A) (k c k' c' : nat) :
  adds_nodes m k c -> k = k' -> c = c' -> adds_nodes m k' c'.
Proof. now intros H <- <-. Qed.

Lemma adds_residual_block (x : tensor_id) (filters : Z) :
  adds_nodes (residual_block x filters) 6 1.
Proof.
  unfold residual_block. eapply adds_weaken.
  - repeat first [ eapply adds_bind; [apply adds_call|intros]
                 | apply adds_ret ].
  - reflexivity.
  - reflexivity.
Qed.

Lemma adds_deconv2d (x : tensor_id) : adds_nodes (deconv2d x) 3 0.
Proof.
  unfold deconv2d. eapply adds_weaken.
  - repeat first [ eapply adds_bind; [apply adds_call|intros]
                 | apply adds_ret ].
  - reflexivity.
  - reflexivity.
Qed.

Lemma adds_for_range (n : nat) (filters : Z) (r : tensor_id) :
  adds_nodes (for_range n (fun r => residual_block r filters) r) (6 * n) n.
Proof.
  revert r. induction n as [|n IH]; intros r; cbn [for_range].
  - apply adds_ret.
  - eapply adds_weaken.
    + eapply adds_bind; [apply adds_residual_block|exact IH].
    + lia.
    + lia.
Qed.

(** X1: whatever [n_residual_blocks] is, the generator graph holds
    [max(1, n_residual_blocks)] residual blocks: it has that many [Add]
    layers besides the one of the global skip connection, and
    [13 + 6 * max(1, n_residual_blocks)] layers in all. A value of 1, 0 or
    less still builds one residual block. *)
Theorem generator_block_count (self : SRGAN) :
  let blocks := Z.to_nat (Z.max 1 (n_residual_blocks self)) in
  count_layers is_add (layers (build_generator self)) = S blocks /\
  List.length (layers (build_generator self)) = (13 + 6 * blocks)%nat.
Proof.
  intros blocks.
  assert (Hb : blocks = S (Z.to_nat (n_residual_blocks self - 1))).
  { unfold blocks. destruct (Z.max_spec 1 (n_residual_blocks self))
      as [[Hlt ->]|[Hle ->]]; [|replace (Z.to_nat (_ - 1)) with O]; lia. }
  assert (H : adds_nodes (generator_body self) (13 + 6 * blocks) (S blocks)).
  { unfold generator_body. rewrite Hb.
    set (n := Z.to_nat (n_residual_blocks self - 1)).
    eapply adds_weaken.
    - repeat first
        [ eapply adds_bind;
          [first [ apply adds_call | apply adds_residual_block
                 | apply adds_for_range | apply adds_deconv2d ]
          |intros]
        | apply adds_ret ].
    - cbn [is_add]. lia.
    - cbn [is_add]. lia. }
  destruct (H []) as [Hlen Hcount].
  unfold build_generator. destruct (generator_body self []) as [t g].
  cbn [snd layers] in *. split; [exact Hcount|exact Hlen].
Qed.

(** ** The discriminator for other sizes *)

Lemma d_block_shape (x : tensor_id) (filters strides : Z) (bn : bool)
  (g : graph) (h w c : Z) :
  shape_at g x = Some (h, w, c) ->
  builds (d_block x filters strides bn) g
    (fun t g' =>
       shape_at g' t
       = Some (conv_extent Same h 3 strides, conv_extent Same w 3 strides,
               filters)).
Proof.
  intros Hx. unfold d_block.
  eapply builds_bind; [eapply builds_call1; [exact Hx|reflexivity]|].
  cbv beta. intros d1 e1 H1.
  eapply builds_bind; [eapply builds_call1; [exact H1|reflexivity]|].
  cbv beta. intros d2 e2 H2.
  destruct bn.
  - eapply builds_call1; [exact H2|reflexivity].
  - now apply builds_ret.
Qed.

(** The shape the discriminator yields, for any hyper-parameters. *)
Lemma discriminator_shape (self : SRGAN) :
  input_shape (build_discriminator self) = [Some (hr_shape self)] /\
  output_shape (build_discriminator self)
  = [Some (halved4 (hr_height self), halved4 (hr_width self), 1)].
Proof.
  assert (H : builds (discriminator_body self) []
                (fun t g =>
                   shape_at g (fst t) = Some (hr_shape self) /\
                   shape_at g (snd t)
                   = Some (halved4 (hr_height self),
                           halved4 (hr_width self), 1))).
  { unfold discriminator_body.
    eapply builds_bind.
    { split; [now exists [mkNode (Input (hr_shape self)) []]|].
      unfold call. cbn [fst snd List.length app].
      instantiate
        (1 := fun t g => t = O /\ shape_at g t = Some (hr_shape self)).
      split; reflexivity. }
    cbv beta. intros d0 e0 [-> H0].
    eapply builds_bind; [eapply d_block_shape; exact H0|].
    cbv beta. intros d1 e1 H1.
    eapply builds_bind; [eapply d_block_shape; exact H1|].
    cbv beta. intros d2 e2 H2.
    eapply builds_bind; [eapply d_block_shape; exact H2|].
    cbv beta. intros d3 e3 H3.
    eapply builds_bind; [eapply d_block_shape; exact H3|].
    cbv beta. intros d4 e4 H4.
    eapply builds_bind; [eapply d_block_shape; exact H4|].
    cbv beta. intros d5 e5 H5.
    eapply builds_bind; [eapply d_block_shape; exact H5|].
    cbv beta. intros d6 e6 H6.
    eapply builds_bind; [eapply d_block_shape; exact H6|].
    cbv beta. intros d7 e7 H7.
    eapply builds_bind; [eapply d_block_shape; exact H7|].
    cbv beta. intros d8 e8 H8.
    eapply builds_bind; [eapply builds_call1; [exact H8|reflexivity]|].
    cbv beta. intros d9 e9 H9.
    eapply builds_bind; [eapply builds_call1; [exact H9|reflexivity]|].
    cbv beta. intros d10 e10 H10.
    eapply builds_bind; [eapply builds_call1; [exact H10|reflexivity]|].
    cbv beta. intros validity e11 H11.
    apply builds_ret. cbn [fst snd]. split.
    - do 11 apply shape_at_app. exact H0.
    - rewrite H11. unfold halved4. rewrite !conv_extent_same_1.
      reflexivity. }
  destruct H as [_ [Hin Hout]].
  unfold build_discriminator, input_shape, output_shape.
  destruct (discriminator_body self []) as [[d0 validity] g].
  cbn [fst snd] in *. cbn [inputs outputs layers map].
  now rewrite Hin, Hout.
Qed.

Lemma halved4_ceil (n : Z) : 0 <= n -> halved4 n = (n + 15) / 16.
Proof.
  intros Hn. unfold halved4, conv_extent.
  Z.to_euclidean_division_equations. lia.
Qed.

(** X2: for any positive image size, whatever the numbers of filters, the
    discriminator yields a map of [ceil(hr_height / 16)] by
    [ceil(hr_width / 16)] values, one channel each. *)
Theorem discriminator_output_shape (self : SRGAN) :
  0 < lr_height self -> 0 < lr_width self ->
  input_shape (build_discriminator self) = [Some (hr_shape self)] /\
  output_shape (build_discriminator self)
  = [Some ((hr_height self + 15) / 16, (hr_width self + 15) / 16, 1)].
Proof.
  intros Hh Hw. destruct (discriminator_shape self) as [Hin Hout].
  split; [exact Hin|]. rewrite Hout.
  rewrite !halved4_ceil by (unfold hr_height, hr_width; lia).
  reflexivity.
Qed.

(** X3: for a square positive image size, [disc_patch], which
    [__init__] computes as [int(hr_height / 2 ** 4)] and [train] uses as
    the shape of the targets, is the shape the discriminator yields
    exactly when [lr_height] is a multiple of 4; otherwise the
    discriminator yields a higher and wider map than [disc_patch]. *)
Theorem disc_patch_matches_iff (self : SRGAN) :
  0 < lr_height self -> lr_width self = lr_height self ->
  (output_shape (build_discriminator self) = [Some (disc_patch self)]
   <-> (4 | lr_height self)) /\
  (~ (4 | lr_height self) ->
   output_shape (build_discriminator self)
   = [Some (patch self + 1, patch self + 1, 1)]).
Proof.
  intros Hh Hw. destruct (discriminator_shape self) as [_ Hout].
  rewrite Hout. unfold disc_patch, patch, hr_width, hr_height. rewrite Hw.
  set (n := lr_height self) in *.
  rewrite !halved4_ceil by lia.
  change (2 ^ 4) with 16.
  assert (Hdiv : (4 | n) <-> (n * 4) mod 16 = 0).
  { split.
    - intros [k ->]. replace (k * 4 * 4) with (k * 16) by lia.
      apply Z.mod_mul. lia.
    - intros Hm. exists (n * 4 / 16).
      Z.to_euclidean_division_equations. lia. }
  split; [split|].
  - intros Heq. apply Hdiv. inversion Heq as [Hq].
    Z.to_euclidean_division_equations. lia.
  - intros H4. apply Hdiv in H4.
    assert (Hq : (n * 4 + 15) / 16 = n * 4 ÷ 16)
      by (Z.to_euclidean_division_equations; lia).
    now rewrite Hq.
  - intros Hn. rewrite Hdiv in Hn.
    assert (Hq : (n * 4 + 15) / 16 = n * 4 ÷ 16 + 1)
      by (Z.to_euclidean_division_equations; lia).
    now rewrite Hq.
Qed.

(** ** File names *)

Lemma str_inj (a b : Z) : str a = str b -> a = b.
Proof.
  unfold str. intros H.
  apply (f_equal NilEmpty.int_of_string) in H.
  rewrite !NilEmpty.isi in H. inversion H as [Hi].
  now apply DecimalZ.to_int_inj.
Qed.

Lemma string_length_append (a b : string) :
  String.length (a ++ b) = (String.length a + String.length b)%nat.
Proof. induction a as [|c a IH]; simpl; [reflexivity|now rewrite IH]. Qed.

Lemma append_inj_r (a b t : string) : (a ++ t = b ++ t)%string -> a = b.
Proof.
  revert b. induction a as [|c a IH]; intros [|c' b] H.
  - reflexivity.
  - apply (f_equal String.length) in H. simpl in H.
    rewrite string_length_append in H. lia.
  - apply (f_equal String.length) in H. simpl in H.
    rewrite string_length_append in H. lia.
  - simpl in H. inversion H. f_equal. now apply IH.
Qed.

Lemma figure_path_inj (a b : Z) :
  ("images/" ++ str a ++ ".png" = "images/" ++ str b ++ ".png")%string ->
  a = b.
Proof.
  intros H. cbn [String.append] in H. inversion H as [H'].
  now apply str_inj, (append_inj_r _ _ ".png").
Qed.

Lemma weights_path_inj (a b : Z) :
  ("./saved_model/" ++ str a ++ ".h5"
   = "./saved_model/" ++ str b ++ ".h5")%string ->
  a = b.
Proof.
  intros H. cbn [String.append] in H. inversion H as [H'].
  now apply str_inj, (append_inj_r _ _ ".h5").
Qed.

(** X4: the figures of two epochs have the same file name only when
    the epochs are the same, and so have the weight files: no epoch
    overwrites what another one saved. *)
Theorem saved_paths_distinct (a b : Z) :
  (("images/" ++ str a ++ ".png" = "images/" ++ str b ++ ".png")%string
   <-> a = b) /\
  (("./saved_model/" ++ str a ++ ".h5"
    = "./saved_model/" ++ str b ++ ".h5")%string
   <-> a = b).
Proof.
  split; [split; [apply figure_path_inj|now intros ->]|].
  split; [apply weights_path_inj|now intros ->].
Qed.

(** ** Runs of [train] at the edges *)

(** X5: with no epochs to run ([epochs <= 0]) [train] returns at once:
    no batch is drawn, nothing is trained and nothing is written. *)
Theorem train_no_epochs (self : SRGAN) (w : world) (epochs b si : Z) :
  epochs <= 0 -> train self epochs b si w = (inr tt, w).
Proof.
  intros He. unfold train, range.
  replace (Z.to_nat epochs) with O by lia. reflexivity.
Qed.

(** X6: with [sample_interval = 0] and at least one epoch, [train]
    raises [ZeroDivisionError] in epoch 0: by then it has drawn two
    batches, made its three training steps and printed the progress line,
    and it has written nothing; no later epoch runs. *)
Theorem train_zero_interval (w : world) (epochs b : Z) :
  0 < epochs ->
  fst (train srgan epochs b 0 w) = inl ZeroDivisionError /\
  loader_calls (snd (train srgan epochs b 0 w)) = S (S (loader_calls w)) /\
  exists evs,
    trace (snd (train srgan epochs b 0 w)) = trace w ++ evs /\
    List.length evs = 8%nat /\
    List.length (filter is_training evs) = 3%nat /\
    saved evs = [] /\
    last evs PrintEnd = PrintProgress 0.
Proof.
  intros He. unfold train, range.
  destruct (Z.to_nat epochs) as [|n] eqn:Hn; [lia|].
  cbn [seq map for_each_with]. change (Z.of_nat 0) with 0.
  unfold seq_run. rewrite train_epoch_run. cbv zeta.
  change ((if 0 >? 100 then 50 else if 0 >? 30 then 10 else 0) =? 0)
    with true.
  cbv iota. cbn [fst snd loader_calls trace].
  split; [reflexivity|]. split; [reflexivity|].
  eexists. split; [reflexivity|]. repeat split.
Qed.

Lemma mod_opp_eqb (e x : Z) : (e mod (- x) =? 0) = (e mod x =? 0).
Proof.
  destruct (Z.eq_dec x 0) as [->|Hx]; [reflexivity|].
  assert (Hiff : e mod (- x) = 0 <-> e mod x = 0).
  { rewrite !Z.mod_divide by lia. apply Z.divide_opp_l. }
  destruct (Z.eqb_spec (e mod (- x)) 0) as [H|H];
    destruct (Z.eqb_spec (e mod x) 0) as [H'|H']; tauto.
Qed.

Lemma epoch_saved_opp (si e : Z) :
  epoch_saved (interval_at (- si) e) e = epoch_saved (interval_at si e) e.
Proof.
  unfold epoch_saved, interval_at.
  destruct (e <=? 30); [now rewrite mod_opp_eqb|reflexivity].
Qed.

(** A run with an interval other than 0, on sample batches that can be
    plotted, returns, and the files it writes are those of its epochs. *)
Lemma train_run_saved (w : world) (epochs b si : Z) :
  si <> 0 ->
  (forall n, plottable (load_data n sample_args)) ->
  exists w',
    train srgan epochs b si w = (inr tt, w') /\
    saved (trace w')
    = saved (trace w)
      ++ flat_map (fun e => epoch_saved (interval_at si e) e) (range epochs).
Proof.
  intros Hsi Hplot.
  destruct (train_loop_saved b Hsi Hplot (Z.to_nat epochs) 0 si w)
    as (si_out & w' & Hloop & Hsaved).
  { intros e _. apply interval_first. }
  fold (range epochs) in Hloop, Hsaved.
  exists w'. split; [|exact Hsaved].
  unfold train. unfold seq_run at 1. now rewrite Hloop.
Qed.

(** The sign of the interval changes nothing an epoch does. *)
Lemma train_epoch_sign (w : world) (b s1 s2 e : Z) :
  s1 = s2 \/ s1 = - s2 ->
  snd (train_epoch srgan b s1 e w) = snd (train_epoch srgan b s2 e w) /\
  same_up_to_sign e_sample_interval
    (fst (train_epoch srgan b s1 e w)) (fst (train_epoch srgan b s2 e w)).
Proof.
  intros [->| ->].
  { split; [reflexivity|].
    destruct (fst (train_epoch srgan b s2 e w)); cbn; auto. }
  rewrite !train_epoch_run. cbv zeta.
  set (w1 := mkWorld _ _ (trace w ++ _)).
  set (d_loss := map (Rmult 0.5) _).
  set (g_loss := batch_losses combined _ _ _).
  clearbody w1 d_loss g_loss.
  destruct (e >? 100).
  { split; [reflexivity|].
    destruct (fst _); cbn; auto. }
  destruct (e >? 30).
  { split; [reflexivity|].
    destruct (fst _); cbn; auto. }
  rewrite mod_opp_eqb.
  replace (- s2 =? 0) with (s2 =? 0)
    by (destruct (Z.eqb_spec s2 0), (Z.eqb_spec (- s2) 0); lia).
  destruct (s2 =? 0); [split; reflexivity|].
  destruct (e mod s2 =? 0).
  - destruct (sample_images_new srgan e w1) as [[ex|l] w2];
      cbn [fst snd]; split; try reflexivity.
    cbn. now right.
  - cbn [fst snd]. split; [reflexivity|]. cbn. now right.
Qed.

Lemma train_loop_sign (b : Z) (xs : list Z) :
  forall (s1 s2 : Z) (w : world),
    s1 = s2 \/ s1 = - s2 ->
    snd (for_each_with xs
           (fun sample_interval epoch =>
              l <- train_epoch srgan b sample_interval epoch ;;
              pure (e_sample_interval l))
           s1 w)
    = snd (for_each_with xs
             (fun sample_interval epoch =>
                l <- train_epoch srgan b sample_interval epoch ;;
                pure (e_sample_interval l))
             s2 w) /\
    same_up_to_sign (fun s : Z => s)
      (fst (for_each_with xs
              (fun sample_interval epoch =>
                 l <- train_epoch srgan b sample_interval epoch ;;
                 pure (e_sample_interval l))
              s1 w))
      (fst (for_each_with xs
              (fun sample_interval epoch =>
                 l <- train_epoch srgan b sample_interval epoch ;;
                 pure (e_sample_interval l))
              s2 w)).
Proof.
  induction xs as [|e xs IH]; intros s1 s2 w Hs.
  - split; [reflexivity|exact Hs].
  - destruct (train_epoch_sign w b e Hs) as [Hw Hr].
    rewrite !train_loop_step.
    destruct (train_epoch srgan b s1 e w) as [[ex1|l1] w1];
      destruct (train_epoch srgan b s2 e w) as [[ex2|l2] w2];
      cbn [fst snd] in Hw, Hr; cbn in Hr; try contradiction; subst w2.
    + subst ex2. split; [reflexivity|exact eq_refl].
    + apply IH. exact Hr.
Qed.

(** X7: a negative [sample_interval] writes the same files, in the same
    order, as its absolute value: [e % -n] is zero exactly when [e % n]
    is. *)
Theorem train_negative_interval (w : world) (epochs b si : Z) :
  si <> 0 ->
  fst (train srgan epochs b (- si) w) = fst (train srgan epochs b si w) /\
  saved (trace (snd (train srgan epochs b (- si) w)))
  = saved (trace (snd (train srgan epochs b si w))).
Proof.
  intros _.
  destruct (train_loop_sign b (range epochs) w
              (or_intror (eq_refl (- si)))) as [Hw Hr].
  rewrite !train_loop.
  destruct (for_each_with _ _ (- si) w) as [[ex1|o1] w1];
    destruct (for_each_with _ _ si w) as [[ex2|o2] w2];
    cbn [fst snd] in Hw, Hr; cbn in Hr; try contradiction; subst w2;
    cbn [fst snd].
  - subst ex2. split; reflexivity.
  - split; reflexivity.
Qed.

Lemma in_saved (ev : event) (tr : list event) :
  is_saved ev = true -> (In ev (saved tr) <-> In ev tr).
Proof.
  intros H. unfold saved. rewrite filter_In. tauto.
Qed.

Lemma in_range (e epochs : Z) : In e (range epochs) <-> 0 <= e < epochs.
Proof.
  unfold range. rewrite in_map_iff. split.
  - intros (n & <- & Hn). apply in_seq in Hn. lia.
  - intros He. exists (Z.to_nat e). split; [lia|]. apply in_seq. lia.
Qed.

Lemma in_epoch_saved_weights (path : string) (interval e : Z) :
  In (SaveWeights path) (epoch_saved interval e) <->
  e mod 500 = 0 /\ 1 < e /\ path = ("./saved_model/" ++ str e ++ ".h5")%string.
Proof.
  unfold epoch_saved. rewrite in_app_iff. split.
  - intros [H|H].
    + destruct (e mod interval =? 0); [|contradiction].
      destruct H as [H|[]]. discriminate.
    + destruct (Z.eqb_spec (e mod 500) 0) as [Hm|]; [|contradiction].
      destruct (Z.gtb_spec e 1); [|contradiction].
      destruct H as [H|[]]. inversion H. auto.
  - intros (Hm & He & ->). right.
    rewrite Hm. destruct (Z.gtb_spec e 1); [|lia]. now left.
Qed.

(** X8: a run of [train] with an interval other than 0, on a loader
    whose sample batches the plotting code accepts, writes the weight
    file that [test_images] loads, ['./saved_model/2000.h5'], exactly when
    it has more than 2000 epochs; a run of at most 500 epochs writes no
    weight file at all. *)
Theorem train_writes_test_weights (w : world) (epochs b si : Z) :
  si <> 0 ->
  (forall n, plottable (load_data n sample_args)) ->
  (In (SaveWeights ("./saved_model/" ++ str 2000 ++ ".h5"))
      (trace (snd (train srgan epochs b si w)))
   <-> In (SaveWeights ("./saved_model/" ++ str 2000 ++ ".h5")) (trace w)
       \/ 2000 < epochs) /\
  (epochs <= 500 ->
   forall path,
     In (SaveWeights path) (trace (snd (train srgan epochs b si w)))
     -> In (SaveWeights path) (trace w)).
Proof.
  intros Hsi Hplot.
  destruct (train_run_saved w epochs b Hsi Hplot) as (w' & Hrun & Hsaved).
  rewrite Hrun. cbn [snd].
  assert (Hin : forall path,
            In (SaveWeights path) (trace w') <->
            In (SaveWeights path) (trace w) \/
            exists e, 0 <= e < epochs /\ e mod 500 = 0 /\ 1 < e /\
                      path = ("./saved_model/" ++ str e ++ ".h5")%string).
  { intros path.
    rewrite <- (in_saved (SaveWeights path) (trace w')) by reflexivity.
    rewrite Hsaved, in_app_iff, in_saved by reflexivity.
    rewrite in_flat_map. split.
    - intros [H|(e & He & Hs)]; [now left|right].
      exists e. apply in_range in He. apply in_epoch_saved_weights in Hs.
      tauto.
    - intros [H|(e & He & Hm & H1 & Hp)]; [now left|right].
      exists e. split; [now apply in_range|].
      apply in_epoch_saved_weights. tauto. }
  split.
  - rewrite Hin. split.
    + intros [H|(e & He & _ & _ & Hp)]; [now left|right].
      apply weights_path_inj in Hp. lia.
    + intros [H|H]; [now left|right].
      exists 2000. repeat split; lia.
  - intros He path Hp. apply Hin in Hp.
    destruct Hp as [H|(e & Hr & Hm & H1 & _)]; [exact H|].
    exfalso. revert Hm. Z.to_euclidean_division_equations. lia.
Qed.

(** X9: every epoch that saves the generator's weights (a multiple of
    500 above 1) also saves its sample figure, just before them, whatever
    [sample_interval] is: from epoch 101 on the interval is 50, and 50
    divides 500. *)
Theorem weights_epoch_saves_figure (w : world) (b si e : Z) :
  1 < e -> e mod 500 = 0 ->
  plottable (load_data (S (S (loader_calls w))) sample_args) ->
  exists (l : epoch_locals) (w' : world),
    train_epoch srgan b si e w = (inr l, w') /\
    e_sample_interval l = 50 /\
    saved (trace w')
    = saved (trace w)
      ++ [Savefig ("images/" ++ str e ++ ".png");
          SaveWeights ("./saved_model/" ++ str e ++ ".h5")].
Proof.
  intros He Hm Hplot.
  assert (H500 : 500 <= e)
    by (revert Hm; Z.to_euclidean_division_equations; lia).
  assert (Hsi : (if e >? 100 then 50 else if e >? 30 then 10 else si) = 50)
    by (destruct (Z.gtb_spec e 100); [reflexivity|lia]).
  destruct (train_epoch_saved w b si e) as (l & w' & Hrun & Hl & Hsv).
  { rewrite Hsi. discriminate. }
  { exact Hplot. }
  rewrite Hsi in Hl, Hsv.
  exists l, w'. split; [exact Hrun|]. split; [exact Hl|].
  rewrite Hsv. f_equal. unfold epoch_saved.
  assert (H50 : e mod 50 = 0)
    by (revert Hm; Z.to_euclidean_division_equations; lia).
  rewrite H50, Hm. destruct (Z.gtb_spec e 1); [reflexivity|lia].
Qed.

(** ** How the networks compose *)

(** X10: for every image size and every number of residual blocks, the
    shape the generator yields is the shape the discriminator takes (as
    [self.combined] needs, which calls the discriminator on the
    generator's output), provided the residual blocks keep the 64 filters
    of the convolutions around them. *)
Theorem generator_feeds_discriminator (self : SRGAN) :
  gf self = 64 ->
  output_shape (build_generator self)
  = input_shape (build_discriminator self).
Proof.
  intros Hgf.
  destruct (generator_shape self Hgf) as [_ Hout].
  destruct (discriminator_shape self) as [Hin _].
  now rewrite Hout, Hin.
Qed.

(** ** sample_images_new and test_images, event by event *)

Lemma flat_map_length_const {A B} (f : A -> list B) (xs : list A) (k : nat) :
  (forall x, List.length (f x) = k) ->
  List.length (flat_map f xs) = (List.length xs * k)%nat.
Proof.
  intros Hf. induction xs as [|x xs IH]; simpl; [reflexivity|].
  now rewrite length_app, Hf, IH.
Qed.

Lemma grid_events_length (r : nat) (titles : list string)
  (images : list ndarray) :
  List.length (grid_events r titles images)
  = (r * List.length images)%nat.
Proof.
  unfold grid_events.
  rewrite (@flat_map_length_const _ _ _ _ (List.length images)).
  - now rewrite length_seq.
  - intros row. rewrite (@flat_map_length_const _ _ _ _ 1%nat) by reflexivity.
    unfold enumerate. rewrite length_combine, length_seq. lia.
Qed.

(** X11: on a batch the plotting code accepts, [sample_images_new]
    returns; it draws one batch (with [batch_size=1], [is_testing=True],
    [is_pred=True]), lets the generator predict once, shows three images
    per high-resolution image of the batch and then writes one file,
    ['images/<epoch>.png']; it trains nothing and leaves all weights as
    they are. *)
Theorem sample_images_new_effects (self : SRGAN) (epoch : Z) (w : world) :
  plottable (load_data (loader_calls w) sample_args) ->
  let batch := load_data (loader_calls w) sample_args in
  exists (l : sample_locals) (grid : list event),
    sample_images_new self epoch w
    = (inr l,
       mkWorld (weights w) (S (loader_calls w))
         (trace w
          ++ [Makedirs "images/"; LoadData sample_args;
              Predict generator (snd batch)]
          ++ grid
          ++ [Savefig ("images/" ++ str epoch ++ ".png")])) /\
    Forall (fun ev => is_imshow ev = true) grid /\
    List.length grid = (3 * len (fst batch))%nat.
Proof.
  intros Hplot batch.
  destruct (sample_images_new_cases self epoch w)
    as (res & grid & Hlogs & _ & Hrun).
  cbv zeta in Hlogs, Hrun. fold batch in Hlogs, Hrun.
  destruct (plottable_sample_grid self (weights w) Hplot) as [H2 Hall].
  fold batch in H2, Hall.
  destruct (logs_unique w Hlogs (show_grid_ok _ H2 Hall)) as [-> ->].
  eexists.
  match goal with
  | _ : context [grid_events ?r ?t ?i] |- _ => exists (grid_events r t i)
  end.
  split; [exact Hrun|].
  split; [apply grid_events_imshow|].
  rewrite grid_events_length, len_rescale. cbn [List.length].
  apply Nat.mul_comm.
Qed.

Lemma forward_generator_ext (self : SRGAN) (ws ws' : model_name -> W)
  (x : ndarray) :
  ws generator = ws' generator ->
  forward self ws generator x = forward self ws' generator x.
Proof.
  intros H. unfold forward. f_equal. apply map_ext. intros img.
  unfold apply_model. now rewrite H.
Qed.

(** X12: [test_images] replaces the generator's weights by those of
    ['./saved_model/2000.h5'] before it predicts: what it returns does
    not depend on the weights in memory (so not on any training done
    before in the same process), only on the file and on the loader;
    afterwards the generator holds the weights of the file and the other
    networks hold theirs. *)
Theorem test_images_ignores_memory_weights (self : SRGAN) (b : Z)
  (w w' : world) :
  (loader_calls w = loader_calls w' ->
   fst (test_images self b w) = fst (test_images self b w')) /\
  weights (snd (test_images self b w)) generator
  = weights_file "./saved_model/2000.h5" /\
  (forall m, m <> generator ->
     weights (snd (test_images self b w)) m = weights w m).
Proof.
  destruct (test_images_cases self b w) as (res & grid & Hlogs & _ & Hw).
  cbv zeta in Hlogs, Hw. rewrite Hw.
  split; [|split].
  - intros Hk.
    destruct (test_images_cases self b w')
      as (res' & grid' & Hlogs' & _ & Hw').
    cbv zeta in Hlogs', Hw'. rewrite Hw'. rewrite <- Hk in Hlogs' |- *.
    set (ws := fun n : model_name => if model_name_eqb n generator then _
                                     else weights w n) in *.
    set (ws' := fun n : model_name => if model_name_eqb n generator then _
                                      else weights w' n) in *.
    rewrite <- (forward_generator_ext self ws ws' _ eq_refl) in Hlogs' |- *.
    destruct (logs_unique w Hlogs Hlogs') as [<- _].
    destruct res; reflexivity.
  - destruct res; reflexivity.
  - intros m Hm. destruct res; destruct m; try reflexivity; contradiction.
Qed.

Lemma imsave_events_count (xs : list (nat * (tensor * tensor))) :
  List.length (filter is_imsave (flat_map imsave_events xs))
  = (2 * List.length xs)%nat.
Proof.
  induction xs as [|[i [lr_img hr_img]] xs IH]; [reflexivity|].
  cbn [flat_map imsave_events app filter is_imsave List.length].
  rewrite IH. lia.
Qed.

Lemma filter_imsave_metric_events (pairs : list (tensor * tensor)) :
  filter is_imsave (flat_map metric_events pairs) = [].
Proof. apply filter_flat_map_nil. intros p. reflexivity. Qed.

Lemma test_images_imsave_count (r : nat) (titles : list string)
  (images : list ndarray) (a0 a1 a2 a3 : event)
  (xs : list (nat * (tensor * tensor))) (pairs : list (tensor * tensor))
  (ps ss : list R) (p1 p2 : R) :
  is_imsave a0 = false -> is_imsave a1 = false ->
  is_imsave a2 = false -> is_imsave a3 = false ->
  List.length
    (filter is_imsave
       ([a0; a1; a2; a3]
        ++ grid_events r titles images
        ++ [Savefig "./result.png"]
        ++ flat_map imsave_events xs
        ++ flat_map metric_events pairs
        ++ [PrintValues ps; PrintValues ss;
            PrintAverage "Average PSNR" p1; PrintAverage "Average SSIM" p2;
            PrintEnd]))
  = (2 * List.length xs)%nat.
Proof.
  intros H0 H1 H2 H3.
  rewrite !filter_app, !length_app.
  rewrite imsave_events_count, filter_imsave_metric_events.
  unfold grid_events.
  rewrite filter_flat_map_nil.
  2:{ intros row. apply filter_flat_map_nil. intros ci. reflexivity. }
  cbn [filter]. rewrite H0, H1, H2, H3. cbn [is_imsave List.length].
  rewrite Nat.add_0_r. reflexivity.
Qed.

(** X13: on a batch the plotting code accepts, [test_images] scores as
    many pairs as the batch has high-resolution images, and writes two
    image files per low-resolution image: when the loader returns more
    low- than high-resolution images, the images beyond the last pair are
    written but take no part in the scores. *)
Theorem test_images_pairs (self : SRGAN) (b : Z) (w : world) :
  let batch := load_data (loader_calls w) (mkLoad b None (Some true)) in
  plottable batch ->
  exists (l : test_locals) (w' : world) (evs : list event),
    test_images self b w = (inr l, w') /\
    trace w' = trace w ++ evs /\
    List.length (t_psnr_values l) = len (fst batch) /\
    List.length (t_ssim_values l) = len (fst batch) /\
    List.length (filter is_metric evs) = (2 * len (fst batch))%nat /\
    List.length (filter is_imsave evs) = (2 * len (snd batch))%nat.
Proof.
  intros batch Hplot.
  pose proof (@test_images_run self b w Hplot) as Hrun. cbv zeta in Hrun.
  fold batch in Hrun. destruct Hplot as [H2 Hle].
  assert (Hpairs :
    forall ws,
      List.length (zip (items (rescale (fst batch)))
                       (items (rescale (forward self ws generator
                                          (snd batch)))))
      = len (fst batch)).
  { intros ws. unfold zip, rescale, nd_map, forward. cbn [items].
    rewrite length_combine, !length_map. apply Nat.min_l. exact Hle. }
  assert (Hfiles :
    forall ws,
      List.length (enumerate
                     (zip (items (rescale (snd batch)))
                          (items (rescale (forward self ws generator
                                             (snd batch))))))
      = len (snd batch)).
  { intros ws. unfold enumerate, zip, rescale, nd_map, forward.
    cbn [items].
    rewrite length_combine, length_seq, length_combine, !length_map.
    rewrite !Nat.min_id. reflexivity. }
  eexists. eexists. eexists. split; [exact Hrun|].
  cbn [trace t_psnr_values t_ssim_values].
  split; [reflexivity|].
  rewrite !length_map, Hpairs.
  split; [reflexivity|]. split; [reflexivity|]. split.
  - rewrite test_images_metric_calls
      by (try apply grid_events_imshow; reflexivity).
    rewrite (@flat_map_length_const _ _ _ _ 2%nat) by reflexivity.
    rewrite Hpairs. apply Nat.mul_comm.
  - rewrite test_images_imsave_count by reflexivity.
    now rewrite Hfiles.
Qed.

(** X14: the script, which calls [test_images] and leaves the call of
    [train] commented out, makes no training step and writes no weight
    file; the weights of the discriminator and of VGG are what they
    were. *)
Theorem main_only_evaluates (w : world) :
  exists evs,
    trace (snd (main w)) = trace w ++ evs /\
    Forall only_evaluates evs /\
    weights (snd (main w)) discriminator = weights w discriminator /\
    weights (snd (main w)) vgg = weights w vgg.
Proof.
  unfold main.
  destruct (test_images_cases srgan 1 w) as (res & grid & _ & Hgrid & Hrun).
  cbv zeta in Hgrid, Hrun. rewrite Hrun.
  apply shows_imshow, imshow_only_evaluates in Hgrid.
  destruct res as [ex|[]]; cbn [snd trace weights];
    (eexists; split; [reflexivity|]; split; [|split; reflexivity]);
    repeat (apply Forall_app; split); try (repeat constructor);
    try exact Hgrid.
  - apply Forall_flat_map. intros [i [lr_img hr_img]]. repeat constructor.
  - apply Forall_flat_map. intros p. repeat constructor.
Qed.

(** ** Batches of a single image *)

(** X15: on a batch of one high-resolution and one low-resolution
    image, [test_images] raises [IndexError] at the first
    [axs[row, col]]: it has drawn the batch, loaded the weights and
    predicted, and it has shown, written and scored nothing. *)
Theorem test_images_one_image (self : SRGAN) (b : Z) (w : world) :
  let batch := load_data (loader_calls w) (mkLoad b None (Some true)) in
  len (fst batch) = 1%nat -> len (snd batch) = 1%nat ->
  fst (test_images self b w) = inl IndexError /\
  trace (snd (test_images self b w))
  = trace w
    ++ [LoadData (mkLoad b None (Some true));
        Makedirs "saved_model/";
        LoadWeights ("./saved_model/" ++ str 2000 ++ ".h5");
        Predict generator (snd batch)].
Proof.
  intros batch H1 _.
  rewrite (@test_images_single self b w H1). split; reflexivity.
Qed.

(** X16: on a batch of one high-resolution and one low-resolution
    image, [sample_images_new] raises [IndexError] at the first
    [axs[row, col]]: it has drawn the batch and predicted, it has shown
    nothing and it has not written the figure; the weights are as they
    were. *)
Theorem sample_images_new_one_image (self : SRGAN) (epoch : Z) (w : world) :
  let batch := load_data (loader_calls w) sample_args in
  len (fst batch) = 1%nat -> len (snd batch) = 1%nat ->
  sample_images_new self epoch w
  = (inl IndexError,
     mkWorld (weights w) (S (loader_calls w))
       (trace w
        ++ [Makedirs "images/"; LoadData sample_args;
            Predict generator (snd batch)])).
Proof.
  intros batch H1 _. exact (@sample_images_new_single self epoch w H1).
Qed.

(** X17: a run of [train] of at least one epoch, with an interval other
    than 0, whose first sample batch holds one high-resolution and one
    low-resolution image, stops in epoch 0 at the [IndexError] of
    [sample_images_new]; it has written no figure and no weights. *)
Theorem train_one_image_sample (w : world) (epochs b si : Z) :
  let batch := load_data (S (S (loader_calls w))) sample_args in
  0 < epochs -> si <> 0 ->
  len (fst batch) = 1%nat -> len (snd batch) = 1%nat ->
  fst (train srgan epochs b si w) = inl IndexError /\
  saved (trace (snd (train srgan epochs b si w))) = saved (trace w).
Proof.
  intros batch He Hsi H1 _. exact (@train_single w epochs b si He Hsi H1).
Qed.

End Program.

(* ================================================================== *)
(** * Runs on the toy environment *)
(* ================================================================== *)

Example str_examples :
  str 0 = "0"%string /\ str 500 = "500"%string /\ str 2000 = "2000"%string.
Proof. repeat split. Qed.

Example range_3 : range 3 = [0; 1; 2] /\ range 0 = [] /\ range (-2) = [].
Proof. repeat split. Qed.

Example interval_at_examples :
  interval_at 5 0 = 5 /\ interval_at 5 30 = 5 /\ interval_at 5 31 = 10 /\
  interval_at 5 100 = 10 /\ interval_at 5 101 = 50.
Proof. repeat split. Qed.

Example epoch_saved_examples :
  epoch_saved 5 0 = [Savefig "images/0.png"] /\
  epoch_saved 5 3 = [] /\
  epoch_saved 50 500
  = [Savefig "images/500.png"; SaveWeights "./saved_model/500.h5"] /\
  epoch_saved 50 1000
  = [Savefig "images/1000.png"; SaveWeights "./saved_model/1000.h5"] /\
  epoch_saved 50 1020 = [].
Proof. repeat split. Qed.

Example disc_patch_examples :
  disc_patch srgan = (16, 16, 1) /\
  nd_shape (np_ones (10 :: shape_list (disc_patch srgan))) = [10; 16; 16; 1] /\
  List.length (items (np_zeros (10 :: shape_list (disc_patch srgan))))
  = 10%nat.
Proof. repeat split. Qed.

Lemma toy_pairs_plottable (n : nat) (a : load_args) :
  plottable (Toy.load_pairs n a).
Proof.
  unfold plottable, Toy.load_pairs, len, np_full. cbn [fst snd items hd].
  rewrite !repeat_length. change (Z.to_nat 2) with 2%nat.
  split; apply le_n.
Defined.

(** A non-zero interval on batches of two images: the figures and
    weights of a run of two epochs. *)
Lemma train_saves_toy :
  saved (trace (snd (train Toy.trained_by Toy.vgg_features Toy.optimizer_step
                       Toy.batch_losses Toy.load_pairs srgan 2 1 5
                       (mkWorld Toy.ws0 0 []))))
  = saved (trace (mkWorld Toy.ws0 0 []))
    ++ flat_map (fun e => epoch_saved (interval_at 5 e) e) (range 2).
Proof.
  exact (proj1 (proj2
    (train_saves Toy.trained_by Toy.vgg_features Toy.optimizer_step
       Toy.batch_losses Toy.load_pairs (mkWorld Toy.ws0 0 []) 2 1
       (si := 5) ltac:(discriminate)
       (fun n => toy_pairs_plottable n sample_args)))).
Defined.

(** Epoch 0 without its figure, although 0 is a multiple of every
    interval. With a zero interval [0 % 0] raises in the first epoch,
    after its training steps and before anything is written. With the
    default interval and a loader that returns as many images as it is
    asked for, the sample batch of [sample_images_new] holds one image,
    the grid of one row cannot be indexed by row and column, and the run
    stops in epoch 0 having written nothing. *)
Lemma train_figure_not_saved :
  (fst (train Toy.trained_by Toy.vgg_features Toy.optimizer_step
          Toy.batch_losses Toy.load_data srgan 1 1 0 (mkWorld Toy.ws0 0 []))
   = inl ZeroDivisionError /\
   saved (trace (snd (train Toy.trained_by Toy.vgg_features
                        Toy.optimizer_step Toy.batch_losses Toy.load_data
                        srgan 1 1 0 (mkWorld Toy.ws0 0 []))))
   = [] /\
   (interval_at 0 0 | 0) /\
   flat_map (fun e => epoch_saved (interval_at 0 e) e) (range 1)
   = [Savefig "images/0.png"]) /\
  (len (fst (Toy.load_data 2 sample_args)) = 1%nat /\
   fst (train Toy.trained_by Toy.vgg_features Toy.optimizer_step
          Toy.batch_losses Toy.load_data srgan 2 1 5 (mkWorld Toy.ws0 0 []))
   = inl IndexError /\
   saved (trace (snd (train Toy.trained_by Toy.vgg_features
                        Toy.optimizer_step Toy.batch_losses Toy.load_data
                        srgan 2 1 5 (mkWorld Toy.ws0 0 []))))
   = [] /\
   (interval_at 5 0 | 0) /\
   flat_map (fun e => epoch_saved (interval_at 5 e) e) (range 2)
   = [Savefig "images/0.png"]).
Proof.
  split.
  - assert (Hrun : exists w1,
               train Toy.trained_by Toy.vgg_features Toy.optimizer_step
                 Toy.batch_losses Toy.load_data srgan 1 1 0
                 (mkWorld Toy.ws0 0 [])
               = (inl ZeroDivisionError, w1) /\ saved (trace w1) = []).
    { unfold train. change (range 1) with [0]. cbn [for_each_with].
      unfold seq_run. rewrite train_epoch_run. cbv zeta.
      change ((if 0 >? 100 then 50 else if 0 >? 30 then 10 else 0) =? 0)
        with true.
      cbv iota. eexists. split; [reflexivity|]. reflexivity. }
    destruct Hrun as (w1 & Hrun & Hsaved). rewrite Hrun. cbn [fst snd].
    split; [reflexivity|]. split; [exact Hsaved|].
    split; [exists 0; reflexivity|]. reflexivity.
  - split; [reflexivity|].
    destruct (train_single Toy.trained_by Toy.vgg_features Toy.optimizer_step
                Toy.batch_losses Toy.load_data (mkWorld Toy.ws0 0 [])
                (epochs := 2) 1 (si := 5) eq_refl ltac:(discriminate)
                eq_refl) as [Hfst Hsaved].
    split; [exact Hfst|]. split; [exact Hsaved|].
    split; [exists 0; reflexivity|]. reflexivity.
Qed.

(** Scores on a batch of two images: the run returns, and each average
    is the sum of the collected values over their number. *)
Lemma test_images_scores_toy :
  exists l w',
    test_images Toy.trained_by Toy.vgg_features Toy.load_pairs
      Toy.weights_file Toy.psnr Toy.ssim srgan 1 (mkWorld Toy.ws0 0 [])
    = (inr l, w') /\
    t_avg_psnr l
    = (fold_right Rplus 0 (t_psnr_values l)
       / INR (List.length (t_psnr_values l)))%R /\
    t_avg_ssim l
    = (fold_right Rplus 0 (t_ssim_values l)
       / INR (List.length (t_ssim_values l)))%R.
Proof.
  destruct (test_images_scores Toy.trained_by Toy.vgg_features
              Toy.load_pairs Toy.weights_file Toy.psnr Toy.ssim srgan
              (mkWorld Toy.ws0 0 []) 1
              (toy_pairs_plottable 0 (mkLoad 1 None (Some true))))
    as (l & w' & evs & pre & Hrun & Hp & Hs & Hap & Has & _).
  exists l, w'.
  split; [exact Hrun|].
  rewrite Hap, Has, Hp, Hs, !length_map. split; reflexivity.
Defined.

(** A loader that returns as many images as it is asked for:
    [test_images()], with its default [batch_size=1], gets one pair of
    images, cannot index the grid of one row by row and column, and stops
    at [IndexError] before any score is computed. *)
Lemma test_images_single_raises :
  len (fst (Toy.load_data 0 (mkLoad 1 None (Some true)))) = 1%nat /\
  len (snd (Toy.load_data 0 (mkLoad 1 None (Some true)))) = 1%nat /\
  fst (test_images Toy.trained_by Toy.vgg_features Toy.load_data
         Toy.weights_file Toy.psnr Toy.ssim srgan 1 (mkWorld Toy.ws0 0 []))
  = inl IndexError /\
  filter is_metric
    (trace (snd (test_images Toy.trained_by Toy.vgg_features Toy.load_data
                   Toy.weights_file Toy.psnr Toy.ssim srgan 1
                   (mkWorld Toy.ws0 0 []))))
  = [].
Proof.
  split; [reflexivity|]. split; [reflexivity|].
  rewrite (test_images_single Toy.trained_by Toy.vgg_features
             Toy.load_data Toy.weights_file Toy.psnr Toy.ssim srgan 1
             (mkWorld Toy.ws0 0 []) eq_refl).
  split; reflexivity.
Qed.

(** On batches of two images both methods return, with generated
    images between 0 and 1. *)
Lemma generated_pixels_bounded_toy :
  (exists l w',
     test_images Toy.trained_by Toy.vgg_features Toy.load_pairs
       Toy.weights_file Toy.psnr Toy.ssim srgan 1 (mkWorld Toy.ws0 0 [])
     = (inr l, w') /\
     Forall (Forall (fun v => 0 <= v <= 1)%R) (items (t_fake_hr l))) /\
  (exists l w',
     sample_images_new Toy.trained_by Toy.vgg_features Toy.load_pairs
       srgan 7 (mkWorld Toy.ws0 0 [])
     = (inr l, w') /\
     Forall (Forall (fun v => 0 <= v <= 1)%R) (items (s_fake_hr l))).
Proof.
  pose proof (generated_pixels_bounded Toy.trained_by Toy.vgg_features
                Toy.load_pairs Toy.weights_file Toy.psnr Toy.ssim
                (Toy.trained_by tt) [] (mkWorld Toy.ws0 0 []) 1 7) as H.
  cbv zeta in H.
  destruct H as (_ & _ & _ & _ & _ & _ & Htest & Hsample).
  split.
  - exact (Htest (toy_pairs_plottable 0 (mkLoad 1 None (Some true)))).
  - exact (Hsample (toy_pairs_plottable 0 sample_args)).
Defined.

(** ** Other sizes, other runs *)

Lemma discriminator_output_shape_oblong :
  output_shape (build_discriminator Toy.oblong) = [Some (8, 11, 1)].
Proof.
  exact (proj2 (discriminator_output_shape Toy.oblong eq_refl eq_refl)).
Defined.

Lemma disc_patch_matches_small :
  output_shape (build_discriminator Toy.small)
  = [Some (disc_patch Toy.small)]
  <-> (4 | lr_height Toy.small).
Proof.
  exact (proj1 (disc_patch_matches_iff Toy.small eq_refl eq_refl)).
Defined.

Lemma train_no_epochs_toy :
  train Toy.trained_by Toy.vgg_features Toy.optimizer_step Toy.batch_losses
    Toy.load_data srgan (-3) 1 5 (mkWorld Toy.ws0 0 [])
  = (inr tt, mkWorld Toy.ws0 0 []).
Proof.
  apply (train_no_epochs Toy.trained_by Toy.vgg_features Toy.optimizer_step
           Toy.batch_losses Toy.load_data srgan (mkWorld Toy.ws0 0 [])
           1 5 (epochs := -3)).
  discriminate.
Defined.

Lemma train_zero_interval_toy :
  fst (train Toy.trained_by Toy.vgg_features Toy.optimizer_step
         Toy.batch_losses Toy.load_data srgan 3000 10 0
         (mkWorld Toy.ws0 0 []))
  = inl ZeroDivisionError.
Proof.
  exact (proj1 (train_zero_interval Toy.trained_by Toy.vgg_features
                  Toy.optimizer_step Toy.batch_losses Toy.load_data
                  (mkWorld Toy.ws0 0 []) 10 (epochs := 3000) eq_refl)).
Defined.

Lemma train_negative_interval_toy :
  saved (trace (snd (train Toy.trained_by Toy.vgg_features Toy.optimizer_step
                       Toy.batch_losses Toy.load_pairs srgan 40 1 (- 5)
                       (mkWorld Toy.ws0 0 []))))
  = saved (trace (snd (train Toy.trained_by Toy.vgg_features
                         Toy.optimizer_step Toy.batch_losses Toy.load_pairs
                         srgan 40 1 5 (mkWorld Toy.ws0 0 [])))).
Proof.
  exact (proj2 (train_negative_interval Toy.trained_by Toy.vgg_features
                  Toy.optimizer_step Toy.batch_losses Toy.load_pairs
                  (mkWorld Toy.ws0 0 []) 40 1 (si := 5)
                  ltac:(discriminate))).
Defined.

Lemma train_writes_test_weights_toy :
  In (SaveWeights ("./saved_model/" ++ str 2000 ++ ".h5"))
     (trace (snd (train Toy.trained_by Toy.vgg_features Toy.optimizer_step
                    Toy.batch_losses Toy.load_pairs srgan 3000 10 2
                    (mkWorld Toy.ws0 0 []))))
  <-> In (SaveWeights ("./saved_model/" ++ str 2000 ++ ".h5"))
         (trace (mkWorld Toy.ws0 0 []))
      \/ 2000 < 3000.
Proof.
  exact (proj1 (train_writes_test_weights Toy.trained_by Toy.vgg_features
                  Toy.optimizer_step Toy.batch_losses Toy.load_pairs
                  Toy.weights_file (mkWorld Toy.ws0 0 []) 3000 10 (si := 2)
                  ltac:(discriminate)
                  (fun n => toy_pairs_plottable n sample_args))).
Defined.

Lemma weights_epoch_saves_figure_toy :
  exists l w',
    train_epoch Toy.trained_by Toy.vgg_features Toy.optimizer_step
      Toy.batch_losses Toy.load_pairs srgan 10 2 1500
      (mkWorld Toy.ws0 0 [])
    = (inr l, w') /\
    e_sample_interval l = 50 /\
    saved (trace w')
    = saved (trace (mkWorld Toy.ws0 0 []))
      ++ [Savefig ("images/" ++ str 1500 ++ ".png");
          SaveWeights ("./saved_model/" ++ str 1500 ++ ".h5")].
Proof.
  exact (weights_epoch_saves_figure Toy.trained_by Toy.vgg_features
           Toy.optimizer_step Toy.batch_losses Toy.load_pairs
           (mkWorld Toy.ws0 0 []) 10 2 (e := 1500) eq_refl eq_refl
           (toy_pairs_plottable 2 sample_args)).
Defined.

Lemma generator_feeds_discriminator_small :
  output_shape (build_generator Toy.small)
  = input_shape (build_discriminator Toy.small).
Proof. exact (generator_feeds_discriminator Toy.small eq_refl). Defined.

Lemma sample_images_new_effects_toy :
  exists l grid,
    sample_images_new Toy.trained_by Toy.vgg_features Toy.load_pairs
      srgan 7 (mkWorld Toy.ws0 0 [])
    = (inr l,
       mkWorld Toy.ws0 1
         ([]
          ++ [Makedirs "images/"; LoadData sample_args;
              Predict generator (snd (Toy.load_pairs 0 sample_args))]
          ++ grid
          ++ [Savefig ("images/" ++ str 7 ++ ".png")])) /\
    Forall (fun ev => is_imshow ev = true) grid /\
    List.length grid = (3 * len (fst (Toy.load_pairs 0 sample_args)))%nat.
Proof.
  exact (sample_images_new_effects Toy.trained_by Toy.vgg_features
           Toy.load_pairs srgan 7 (mkWorld Toy.ws0 0 [])
           (toy_pairs_plottable 0 sample_args)).
Defined.

Lemma test_images_pairs_toy :
  exists l w' evs,
    test_images Toy.trained_by Toy.vgg_features Toy.load_pairs
      Toy.weights_file Toy.psnr Toy.ssim srgan 1 (mkWorld Toy.ws0 0 [])
    = (inr l, w') /\
    trace w' = [] ++ evs /\
    List.length (t_psnr_values l)
    = len (fst (Toy.load_pairs 0 (mkLoad 1 None (Some true)))) /\
    List.length (t_ssim_values l)
    = len (fst (Toy.load_pairs 0 (mkLoad 1 None (Some true)))) /\
    List.length (filter is_metric evs)
    = (2 * len (fst (Toy.load_pairs 0 (mkLoad 1 None (Some true)))))%nat /\
    List.length (filter is_imsave evs)
    = (2 * len (snd (Toy.load_pairs 0 (mkLoad 1 None (Some true)))))%nat.
Proof.
  exact (test_images_pairs Toy.trained_by Toy.vgg_features Toy.load_pairs
           Toy.weights_file Toy.psnr Toy.ssim srgan 1 (mkWorld Toy.ws0 0 [])
           (toy_pairs_plottable 0 (mkLoad 1 None (Some true)))).
Defined.

(** A size that is no multiple of 4: the targets of [train] would not
    have the shape of what the discriminator yields. *)
Example disc_patch_mismatch_odd :
  output_shape (build_discriminator Toy.odd) = [Some (17, 17, 1)] /\
  disc_patch Toy.odd = (16, 16, 1).
Proof. split; vm_compute; reflexivity. Qed.

Example generator_block_count_examples :
  List.length (layers (build_generator Toy.oblong)) = 19%nat /\
  List.length (layers (build_generator Toy.small)) = 25%nat /\
  List.length (residual_blocks (layers (build_generator Toy.oblong)))
  = 1%nat /\
  List.length (residual_blocks (layers (build_generator Toy.small)))
  = 2%nat.
Proof. repeat split; vm_compute; reflexivity. Qed.

(** ** A loader that returns as many images as it is asked for *)

Lemma test_images_one_image_toy :
  fst (test_images Toy.trained_by Toy.vgg_features Toy.load_data
         Toy.weights_file Toy.psnr Toy.ssim srgan 1 (mkWorld Toy.ws0 0 []))
  = inl IndexError.
Proof.
  exact (proj1 (test_images_one_image Toy.trained_by Toy.vgg_features
                  Toy.load_data Toy.weights_file Toy.psnr Toy.ssim srgan 1
                  (mkWorld Toy.ws0 0 []) eq_refl eq_refl)).
Defined.

Lemma sample_images_new_one_image_toy :
  sample_images_new Toy.trained_by Toy.vgg_features Toy.load_data srgan 0
    (mkWorld Toy.ws0 2 [])
  = (inl IndexError,
     mkWorld Toy.ws0 3
       ([]
        ++ [Makedirs "images/"; LoadData sample_args;
            Predict generator (snd (Toy.load_data 2 sample_args))])).
Proof.
  exact (sample_images_new_one_image Toy.trained_by Toy.vgg_features
           Toy.load_data srgan 0 (mkWorld Toy.ws0 2 []) eq_refl eq_refl).
Defined.

Lemma train_one_image_sample_toy :
  fst (train Toy.trained_by Toy.vgg_features Toy.optimizer_step
         Toy.batch_losses Toy.load_data srgan 3000 10 2
         (mkWorld Toy.ws0 0 []))
  = inl IndexError.
Proof.
  exact (proj1 (train_one_image_sample Toy.trained_by Toy.vgg_features
                  Toy.optimizer_step Toy.batch_losses Toy.load_data
                  (mkWorld Toy.ws0 0 []) (epochs := 3000) 10 (si := 2)
                  eq_refl ltac:(discriminate) eq_refl eq_refl)).
Defined.
